(** * The nes WebSocket client ([lib/client.js]) as a state machine

    The client is embedded as explicit state passing: the [Client] object,
    the sockets it has created, and a log of everything it does to the
    outside (hooks, application callbacks, socket calls, timers).  Closures
    that the source stores or passes on ([_requests] entries, the callback of
    [_connect]) are first-order data here, applied by [apply_*] functions that
    follow the closure bodies line by line.

    What is taken for granted:
    - the hooks [onError], [onConnect], [onBroadcast] and the callbacks of
      the application return and do not call the client while they run; a
      call of one of them is an entry of the log;
    - [JSON.stringify], [JSON.parse] and [ws.send] are parameters: each
      returns or throws an [Error];
    - [new WS(url, settings)] returns a socket that is connecting;
    - numbers are integers of any size; the text of one of 10^21 or more,
      which JavaScript prints with an exponent, is left out. *)

From Stdlib Require Import ZArith NArith String Ascii.
From Stdlib Require Import DecimalString DecimalN DecimalZ.
From stdpp Require Import gmap strings list fin_maps sorting.

Local Open Scope string_scope.
Local Open Scope list_scope.

(** ** JavaScript values

    JSON data (what [JSON.parse] returns and what the application passes as
    headers, payload or credential) plus [Error] objects.  Numbers are the
    integers; fractions, [NaN] and the infinities of IEEE doubles are left
    out, and so is the rounding of integers beyond 2^53.  Printing a number
    of 10^21 or more, which JavaScript does in exponent form, is
    [Unmodelled]. *)

#[local] Set Warnings "-register-all".

Inductive value : Type :=
  | VUndefined
  | VNull
  | VBool (b : bool)
  | VNum (n : Z)
  | VStr (s : string)
  | VArr (items : list value)
  | VObj (fields : list (string * value))
  | VError (message : string).

(** What leaves a function other than by [return]: a [TypeError] raised by
    the engine, or [Unmodelled] where the run needs a conversion that this
    development does not define (a string compared as a number, a number
    printed in exponent form). *)
Inductive exn : Type :=
  | TypeError (what : string)
  | Unmodelled (what : string).

Inductive completion (A : Type) : Type :=
  | Normal (a : A)
  | Throw (e : exn).
Arguments Normal {A} a.
Arguments Throw {A} e.

(** [!v]: the falsy values are undefined, null, false, 0 and the empty
    string. *)
Definition truthy (v : value) : bool :=
  match v with
  | VUndefined | VNull => false
  | VBool b => b
  | VNum n => negb (n =? 0)%Z
  | VStr s => negb (String.eqb s "")
  | VArr _ | VObj _ | VError _ => true
  end.

(** [v === 'text'] *)
Definition is_string (v : value) (text : string) : bool :=
  match v with
  | VStr s => String.eqb s text
  | _ => false
  end.

Fixpoint assoc (name : string) (fields : list (string * value)) : option value :=
  match fields with
  | [] => None
  | (k, v) :: rest => if String.eqb k name then Some v else assoc name rest
  end.

(** [o.name] for the property names the client reads ([nes], [id],
    [statusCode], [payload], [headers], [message], [error]); none of them is
    inherited from a prototype, so a missing one reads as undefined.  Reading
    a property of undefined or null throws. *)
Definition get_property (o : value) (name : string) : completion value :=
  match o with
  | VUndefined => Throw (TypeError ("Cannot read property '" +:+ name +:+ "' of undefined"))
  | VNull => Throw (TypeError ("Cannot read property '" +:+ name +:+ "' of null"))
  | VObj fields => Normal (default VUndefined (assoc name fields))
  | VError message =>
      Normal (if String.eqb name "message" then VStr message else VUndefined)
  | VBool _ | VNum _ | VStr _ | VArr _ => Normal VUndefined
  end.

(** [o.name = v] on an object literal *)
Fixpoint set_property (fields : list (string * value)) (name : string) (v : value)
    : list (string * value) :=
  match fields with
  | [] => [(name, v)]
  | (k, old) :: rest =>
      if String.eqb k name then (k, v) :: rest
      else (k, old) :: set_property rest name v
  end.

(** Number::toString of an integer: the decimal numeral while the number
    is below 10^21 in size. *)
Definition number_to_string (n : Z) : completion string :=
  if (Z.abs n <? 10 ^ 21)%Z then Normal (NilZero.string_of_int (Z.to_int n))
  else Throw (Unmodelled "Number::toString of a number of 1e21 or more").

(** ToString.  An object parsed from JSON is printed by the inherited
    [Object.prototype.toString] unless it has an own [toString] property,
    which cannot be a function: then no conversion exists and the engine
    throws a TypeError.  An array joins its elements with commas, printing
    undefined and null as nothing; the first element that cannot be printed
    decides. *)
Fixpoint ToString (v : value) : completion string :=
  match v with
  | VUndefined => Normal "undefined"
  | VNull => Normal "null"
  | VBool b => Normal (if b then "true" else "false")
  | VNum n => number_to_string n
  | VStr s => Normal s
  | VArr items =>
      (fix join (l : list value) : completion string :=
         match l with
         | [] => Normal ""
         | x :: rest =>
             let head :=
               match x with
               | VUndefined | VNull => Normal ""
               | _ => ToString x
               end in
             match rest with
             | [] => head
             | _ :: _ =>
                 match head with
                 | Normal a =>
                     match join rest with
                     | Normal b => Normal (a +:+ "," +:+ b)
                     | Throw e => Throw e
                     end
                 | Throw e => Throw e
                 end
             end
         end) items
  | VObj fields =>
      match assoc "toString" fields with
      | Some _ => Throw (TypeError "Cannot convert object to primitive value")
      | None => Normal "[object Object]"
      end
  | VError message =>
      Normal (if String.eqb message "" then "Error" else "Error: " +:+ message)
  end.

(** ToNumber, as the relational operators apply it; [None] is NaN. *)
Definition to_number (v : value) : completion (option Z) :=
  match v with
  | VUndefined => Normal None
  | VNull => Normal (Some 0%Z)
  | VBool b => Normal (Some (if b then 1 else 0)%Z)
  | VNum n => Normal (Some n)
  | VStr _ => Throw (Unmodelled "ToNumber of a string")
  | VArr _ => Throw (Unmodelled "ToNumber of an array")
  | VObj fields =>
      match assoc "toString" fields with
      | Some _ => Throw (TypeError "Cannot convert object to primitive value")
      | None => Normal None
      end
  | VError _ => Normal None
  end.

(** [new Error(m)]: the message is ToString(m), or empty for undefined. *)
Definition new_Error (m : value) : completion value :=
  match m with
  | VUndefined => Normal (VError "")
  | _ =>
      match ToString m with
      | Normal s => Normal (VError s)
      | Throw e => Throw e
      end
  end.

(** The own property names of [_requests] are the numerals of the ids
    stored under them; [own_id] reads a string back as the id whose decimal
    numeral it is.  (Ids of 10^21 and more, which no client reaches, are
    stored under exponent-form names that are not read back here.) *)
Definition own_id (name : string) : option N :=
  match NilZero.uint_of_string name with
  | Some d =>
      let id := N.of_uint d in
      if String.eqb (NilZero.string_of_uint (N.to_uint id)) name then Some id else None
  | None => None
  end.

(** A property name of [_requests]: the numeral of an id, or another
    string. *)
Inductive property_key : Type :=
  | Numeral (id : N)
  | Name (name : string).

(** ToPropertyKey, that is ToString.  A number that is not negative is the
    numeral of itself, however it is printed. *)
Definition to_property_key (v : value) : completion property_key :=
  match v with
  | VNum n =>
      if (0 <=? n)%Z then Normal (Numeral (Z.to_N n))
      else
        match number_to_string n with
        | Normal name => Normal (Name name)
        | Throw e => Throw e
        end
  | _ =>
      match ToString v with
      | Normal name =>
          Normal (match own_id name with
                  | Some id => Numeral id
                  | None => Name name
                  end)
      | Throw e => Throw e
      end
  end.

(** The own property that a key can name. *)
Definition own_key (key : property_key) : option N :=
  match key with
  | Numeral id => Some id
  | Name _ => None
  end.

(** What [_requests], an object literal, inherits from [Object.prototype],
    by what happens when the value is called as [callback(null, update)],
    a call without receiver: [Object], [toString] and [isPrototypeOf] return
    a value that is dropped; the other functions begin by converting their
    receiver to an object and throw a TypeError, whose wording is the
    engine's; [__proto__] is [Object.prototype] itself, an object that
    cannot be called. *)
Inductive inherited : Type :=
  | Returns
  | Fails
  | NotCallable.

Definition Object_prototype (name : string) : option inherited :=
  if bool_decide (name ∈ ["constructor"; "toString"; "isPrototypeOf"]) then Some Returns
  else if bool_decide (name ∈ ["hasOwnProperty"; "propertyIsEnumerable";
                               "toLocaleString"; "valueOf";
                               "__defineGetter__"; "__defineSetter__";
                               "__lookupGetter__"; "__lookupSetter__"]) then Some Fails
  else if String.eqb name "__proto__" then Some NotCallable
  else None.

(** ** The client, its sockets and its closures *)

(** An application function (a callback handed to [connect], [request] or
    [authenticate]), known by a name: calling it is recorded, its body is
    not part of the client. *)
Definition fn := nat.

(** A socket created by [new WS(...)], known by its position in the store. *)
Definition handle := nat.

Inductive ReadyState : Type := CONNECTING | OPEN | CLOSING | CLOSED.

Definition is_OPEN (s : ReadyState) : bool :=
  match s with OPEN => true | _ => false end.

Definition is_CONNECTING (s : ReadyState) : bool :=
  match s with CONNECTING => true | _ => false end.

(** The [callback] argument of [_connect] and [authenticate]: a function of
    the application, or the closure that [_reconnect] builds for its timer
    (source lines 165 to 171). *)
Inductive connect_callback : Type :=
  | AppCallback (f : fn)
  | ReconnectCallback.

(** The values of [_requests]: the closure that [request] passes to [_send]
    (lines 196 to 209) or the one that [authenticate] passes (lines 252 to
    264), each holding the [callback] it captured. *)
Inductive request_callback : Type :=
  | RequestCallback (callback : fn)
  | AuthenticateCallback (callback : connect_callback).

(** [this._reconnection] *)
Record Reconnection : Type := {
  wait : Z;
  delay : Z;
  maxDelay : Z;
  auth : value
}.

(** The state fields of [Client] (lines 43 to 46).  The id counter is a
    natural number; [_requests] maps an id to the callback stored under its
    numeral. *)
Record Client : Type := {
  _ws : option handle;
  _reconnection : option Reconnection;
  _ids : N;
  _requests : gmap N request_callback
}.

(** A socket: the transport's ready state and the variables that the four
    handlers installed by [_connect] close over. *)
Record WebSocket : Type := {
  readyState : ReadyState;
  sentCallback : bool;
  connect_auth : value;
  connect_cb : connect_callback
}.

(** The client object, the sockets created so far, and the number of
    reconnect timers set and not yet fired. *)
Record World : Type := {
  self : Client;
  sockets : list WebSocket;
  timers : nat
}.

(** What the client does to the outside. *)
Inductive effect : Type :=
  | OnError (err : value)                 (* self.onError(err) *)
  | OnConnect                             (* self.onConnect() *)
  | OnBroadcast (message : value)         (* self.onBroadcast(message) *)
  | Call (f : fn) (args : list value)     (* an application callback is called *)
  | NewWS (h : handle)                    (* new WS(url, settings) *)
  | WsSend (h : handle) (data : value)    (* ws.send(data) returned *)
  | WsClose (h : handle)                  (* ws.close() *)
  | SetTimeout (ms : Z)                   (* setTimeout(<reconnect>, ms) *)
  | Uncaught (e : exn).                   (* an exception left the handler *)

(** new Client(url, options) *)
Definition new_Client : Client :=
  {| _ws := None; _reconnection := None; _ids := 0%N; _requests := ∅ |}.

Definition initial : World := {| self := new_Client; sockets := []; timers := 0 |}.

(** ** A monad for handler bodies: state, log and exceptions *)

Definition M (A : Type) : Type := World → completion A * World * list effect.

Definition ret {A} (a : A) : M A := λ w, (Normal a, w, []).

Definition bind {A B} (m : M A) (k : A → M B) : M B := λ w,
  match m w with
  | (Normal a, w1, log1) =>
      match k a w1 with
      | (r, w2, log2) => (r, w2, log1 ++ log2)
      end
  | (Throw e, w1, log1) => (Throw e, w1, log1)
  end.

Declare Scope js_scope.
Delimit Scope js_scope with js.
Bind Scope js_scope with M.
Notation "x <- m ;; k" := (bind m (λ x, k))
  (at level 100, m at next level, right associativity) : js_scope.
Notation "m ;; k" := (bind m (λ _, k))
  (at level 100, right associativity) : js_scope.
Local Open Scope js_scope.

Definition throw {A} (e : exn) : M A := λ w, (Throw e, w, []).

Definition lift {A} (c : completion A) : M A :=
  match c with
  | Normal a => ret a
  | Throw e => throw e
  end.

Definition emit (e : effect) : M unit := λ w, (Normal tt, w, [e]).

Definition this : M Client := λ w, (Normal (self w), w, []).

(** Assignments to the fields of [this] *)
Definition with_ws (ws : option handle) (c : Client) : Client :=
  {| _ws := ws; _reconnection := _reconnection c; _ids := _ids c; _requests := _requests c |}.

Definition with_reconnection (r : option Reconnection) (c : Client) : Client :=
  {| _ws := _ws c; _reconnection := r; _ids := _ids c; _requests := _requests c |}.

Definition with_ids (n : N) (c : Client) : Client :=
  {| _ws := _ws c; _reconnection := _reconnection c; _ids := n; _requests := _requests c |}.

Definition with_requests (t : gmap N request_callback) (c : Client) : Client :=
  {| _ws := _ws c; _reconnection := _reconnection c; _ids := _ids c; _requests := t |}.

Definition with_self (f : Client → Client) (w : World) : World :=
  {| self := f (self w); sockets := sockets w; timers := timers w |}.

Definition update (f : Client → Client) : M unit := λ w, (Normal tt, with_self f w, []).

Definition set_ws (ws : option handle) : M unit := update (with_ws ws).

Definition set_reconnection (r : option Reconnection) : M unit :=
  update (with_reconnection r).


Definition socket (h : handle) : M (option WebSocket) := λ w,
  (Normal (sockets w !! h), w, []).

Definition update_socket (h : handle) (f : WebSocket → WebSocket) : M unit := λ w,
  (Normal tt,
   {| self := self w;
      sockets := match sockets w !! h with
                 | Some s => <[h := f s]> (sockets w)
                 | None => sockets w
                 end;
      timers := timers w |}, []).

Definition set_readyState (h : handle) (s : ReadyState) : M unit :=
  update_socket h (λ ws, {| readyState := s; sentCallback := sentCallback ws;
                            connect_auth := connect_auth ws; connect_cb := connect_cb ws |}).

Definition set_sentCallback (h : handle) (b : bool) : M unit :=
  update_socket h (λ ws, {| readyState := readyState ws; sentCallback := b;
                            connect_auth := connect_auth ws; connect_cb := connect_cb ws |}).

(** [new WS(url, settings)] followed by the assignment of the four
    handlers, which close over [auth], [callback] and [sentCallback = false]. *)
Definition new_WS (auth : value) (callback : connect_callback) : M handle := λ w,
  let h := length (sockets w) in
  (Normal h,
   {| self := self w;
      sockets := sockets w ++ [{| readyState := CONNECTING; sentCallback := false;
                                  connect_auth := auth; connect_cb := callback |}];
      timers := timers w |},
   [NewWS h]).

(** [setTimeout(f, ms)] where [f] is the function of lines 163 to 172, the
    only one the client ever schedules. *)
Definition setTimeout (ms : Z) : M unit := λ w,
  (Normal tt, {| self := self w; sockets := sockets w; timers := S (timers w) |},
   [SetTimeout ms]).

(** [for (var i = 0; i < l.length; ++i) body(l[i])] *)
Fixpoint for_each {A} (l : list A) (body : A → M unit) : M unit :=
  match l with
  | [] => ret tt
  | x :: rest => body x ;; for_each rest body
  end.

(** The [n]-th actual argument of a call; a missing one is undefined. *)
Definition arg (n : nat) (args : list value) : value := nth n args VUndefined.

(** ** Arguments of the facade *)

Module ConnectOptions.
(** [delay] and [maxDelay] are a number or absent. *)
Record t : Type := {
  reconnect : value;
  delay : option Z;
  maxDelay : option Z;
  auth : value
}.
(** [{}] *)
Definition empty : t :=
  {| reconnect := VUndefined; delay := None; maxDelay := None; auth := VUndefined |}.
End ConnectOptions.

Module RequestOptions.
Record t : Type := {
  method : value;
  path : value;
  headers : value;
  payload : value
}.
End RequestOptions.

(** [n || d] for a number or undefined [n] *)
Definition or_number (n : option Z) (d : Z) : Z :=
  match n with
  | Some k => if truthy (VNum k) then k else d
  | None => d
  end.

(** [v !== false] *)
Definition is_not_false (v : value) : bool :=
  match v with
  | VBool false => false
  | _ => true
  end.

(** [v >= k] and [v <= k] for a number [k] *)
Definition ge (v : value) (k : Z) : M bool :=
  n <- lift (to_number v) ;;
  ret (match n with Some n => (k <=? n)%Z | None => false end).

Definition le (v : value) (k : Z) : M bool :=
  n <- lift (to_number v) ;;
  ret (match n with Some n => (n <=? k)%Z | None => false end).

(** ['text' + v] *)
Definition concat (text : string) (v : value) : M string :=
  s <- lift (ToString v) ;;
  ret (text +:+ s).

(** [Object.keys(t)]: integer-like property names come in ascending order. *)
Definition Object_keys (t : gmap N request_callback) : list N :=
  merge_sort N.le (map fst (map_to_list t)).

(** The own property of [t] under an id, if there is one, and [t] without
    it. *)
Definition requests_get (t : gmap N request_callback) (key : option N)
    : option request_callback :=
  match key with
  | Some id => t !! id
  | None => None
  end.

Definition requests_delete (t : gmap N request_callback) (key : option N)
    : gmap N request_callback :=
  match key with
  | Some id => delete id t
  | None => t
  end.

(** [++this._ids] *)
Definition next_id : M N := λ w,
  let id := N.succ (_ids (self w)) in
  (Normal id, with_self (with_ids id) w, []).

(** [this._requests[id] = callback] for an id of the counter *)
Definition store_request (id : N) (callback : request_callback) : M unit :=
  update (λ c, with_requests (<[id := callback]> (_requests c)) c).

(** [this._requests[id]] for an id that [Object.keys] has listed *)
Definition lookup_request (key : option N) : M (option request_callback) := λ w,
  (Normal (requests_get (_requests (self w)) key), w, []).

(** The value of a property of [_requests]: a stored callback, or what
    [Object.prototype] has under the name. *)
Inductive property_value : Type :=
  | Stored (callback : request_callback)
  | Inherited (member : inherited).

(** [t[key]]: the own property, else the inherited one, else undefined. *)
Definition requests_property (t : gmap N request_callback) (key : property_key)
    : option property_value :=
  match key with
  | Numeral id => Stored <$> t !! id
  | Name name => Inherited <$> Object_prototype name
  end.

(** [this._requests[key]] *)
Definition lookup_property (key : property_key) : M (option property_value) := λ w,
  (Normal (requests_property (_requests (self w)) key), w, []).

(** [delete this._requests[key]] *)
Definition delete_request (key : option N) : M unit :=
  update (λ c, with_requests (requests_delete (_requests c) key) c).

(** ** The client's methods *)

Section Client.

(** The collaborators: [JSON.stringify] and [JSON.parse] either return or
    throw an [Error] with some message ([inl]); [ws.send] returns or throws
    likewise. *)
Variable JSON_stringify : value → string + string.
Variable JSON_parse : string → string + value.
Variable ws_send : handle → value → option string.

(** lines 309 to 322 *)
Definition stringify {A} (message : value) (next : value → value → M A) : M A :=
  match JSON_stringify message with
  | inr string => next VNull (VStr string)
  | inl err => next (VError err) VNull
  end.

(** lines 294 to 307 *)
Definition parse {A} (message : string) (next : value → value → M A) : M A :=
  match JSON_parse message with
  | inr obj => next VNull obj
  | inl err => next (VError err) VNull
  end.

(** lines 153 to 174 *)
Definition _reconnect : M unit :=
  c <- this ;;
  match _reconnection c with
  | Some r =>
      let r' := {| wait := wait r + delay r; delay := delay r;
                   maxDelay := maxDelay r; auth := auth r |}%Z in
      set_reconnection (Some r') ;;
      let timeout := Z.min (wait r') (maxDelay r') in
      setTimeout timeout
  | None => ret tt
  end.

(** Calling the [callback] of [_connect] or [authenticate] with [args]. *)
Definition apply_connect_callback (callback : connect_callback) (args : list value)
    : M unit :=
  match callback with
  | AppCallback f => emit (Call f args)
  | ReconnectCallback =>
      (* lines 165 to 171 *)
      let err := arg 0 args in
      if truthy err then
        emit (OnError err) ;;
        _reconnect
      else ret tt
  end.

(** Calling a callback stored in [_requests] with [args]. *)
Definition apply_request_callback (k : request_callback) (args : list value)
    : M unit :=
  let err := arg 0 args in
  let update := arg 1 args in
  match k with
  | RequestCallback callback =>
      (* lines 196 to 209 *)
      if truthy err then emit (Call callback [err])
      else
        nes <- lift (get_property update "nes") ;;
        if negb (is_string nes "response") then
          text <- concat "Received unexpected response type: " nes ;;
          emit (OnError (VError text))
        else
          statusCode <- lift (get_property update "statusCode") ;;
          above <- ge statusCode 400 ;;
          inside <- (if above then le statusCode 599 else ret false) ;;
          error <- (if inside then
                      payload <- lift (get_property update "payload") ;;
                      message <- lift (get_property payload "message") ;;
                      lift (new_Error message)
                    else ret VNull) ;;
          payload <- lift (get_property update "payload") ;;
          headers <- lift (get_property update "headers") ;;
          emit (Call callback [error; payload; statusCode; headers])
  | AuthenticateCallback callback =>
      (* lines 252 to 264 *)
      if truthy err then apply_connect_callback callback [err]
      else
        nes <- lift (get_property update "nes") ;;
        if negb (is_string nes "auth") then
          text <- concat "Received unexpected response type: " nes ;;
          emit (OnError (VError text))
        else
          error <- lift (get_property update "error") ;;
          result <- (if truthy error then lift (new_Error error) else ret VNull) ;;
          apply_connect_callback callback [result]
  end.

(** lines 212 to 240 *)
Definition _send (request : list (string * value)) (callback : request_callback)
    : M unit :=
  c <- this ;;
  match _ws c with
  | None => apply_request_callback callback [VError "Disconnected"]
  | Some h =>
      ws <- socket h ;;
      if negb (from_option (λ s, is_OPEN (readyState s)) false ws) then
        apply_request_callback callback [VError "Disconnected"]
      else
        id <- next_id ;;
        let request := set_property request "id" (VNum (Z.of_N id)) in
        stringify (VObj request) (λ err encoded,
          if truthy err then apply_request_callback callback [err]
          else
            store_request id callback ;;
            match ws_send h encoded with
            | None => emit (WsSend h encoded)
            | Some err =>
                delete_request (Some id) ;;
                apply_request_callback callback [VError err]
            end)
  end.

(** lines 242 to 265 *)
Definition authenticate (token : value) (callback : connect_callback) : M unit :=
  let request := [("id", VNum 0); ("nes", VStr "auth"); ("token", token)] in
  _send request (AuthenticateCallback callback).

(** lines 176 to 210 *)
Definition request (options : string + RequestOptions.t) (callback : fn) : M unit :=
  let options :=
    match options with
    | inl path => {| RequestOptions.method := VStr "GET";
                     RequestOptions.path := VStr path;
                     RequestOptions.headers := VUndefined;
                     RequestOptions.payload := VUndefined |}
    | inr options => options
    end in
  let request := [("id", VNum 0); ("nes", VStr "request");
                  ("method", RequestOptions.method options);
                  ("path", RequestOptions.path options);
                  ("headers", RequestOptions.headers options);
                  ("payload", RequestOptions.payload options)] in
  _send request (RequestCallback callback).

(** lines 267 to 292; [data] is [message.data] *)
Definition _onMessage (data : string) : M unit :=
  parse data (λ err update,
    if truthy err then emit (OnError err)
    else
      nes <- lift (get_property update "nes") ;;
      if is_string nes "broadcast" then
        message <- lift (get_property update "message") ;;
        emit (OnBroadcast message)
      else
        id <- lift (get_property update "id") ;;
        key <- lift (to_property_key id) ;;
        callback <- lookup_property key ;;
        delete_request (own_key key) ;;
        match callback with
        | None => emit (OnError (VError "Received response for missing request"))
        | Some (Stored callback) => apply_request_callback callback [VNull; update]
        | Some (Inherited Returns) => ret tt
        | Some (Inherited Fails) =>
            throw (TypeError "Cannot convert undefined or null to object")
        | Some (Inherited NotCallable) => throw (TypeError "callback is not a function")
        end).

(** lines 134 to 151 *)
Definition _onClose : M unit :=
  set_ws None ;;
  let error := VError "Disconnected" in
  c <- this ;;
  let ids := Object_keys (_requests c) in
  for_each ids (λ id,
    callback <- lookup_request (Some id) ;;
    delete_request (Some id) ;;
    match callback with
    | Some callback => apply_request_callback callback [error]
    | None => throw (TypeError "callback is not a function")
    end) ;;
  _reconnect.

(** lines 77 to 117: the socket is created and stored; its handlers are
    [ws_onopen], [ws_onerror], [ws_onclose] and [ws_onmessage] below. *)
Definition _connect (auth : value) (callback : connect_callback) : M unit :=
  ws <- new_WS auth callback ;;
  set_ws (Some ws).

(** lines 85 to 96 *)
Definition ws_onopen (h : handle) (ws : WebSocket) : M unit :=
  if negb (sentCallback ws) then
    set_sentCallback h true ;;
    emit OnConnect ;;
    if negb (truthy (connect_auth ws)) then apply_connect_callback (connect_cb ws) []
    else authenticate (connect_auth ws) (connect_cb ws)
  else ret tt.

(** lines 98 to 106 *)
Definition ws_onerror (h : handle) (ws : WebSocket) (err : value) : M unit :=
  if negb (sentCallback ws) then
    set_sentCallback h true ;;
    apply_connect_callback (connect_cb ws) [err]
  else emit (OnError err).

(** lines 108 to 111 *)
Definition ws_onclose : M unit := _onClose.

(** lines 113 to 116 *)
Definition ws_onmessage (data : string) : M unit := _onMessage data.

(** The function given to [setTimeout], lines 163 to 172.  The argument
    [self._reconnection.auth] is evaluated before [_connect] is entered. *)
Definition reconnect_timer : M unit :=
  c <- this ;;
  match _reconnection c with
  | None => throw (TypeError "Cannot read property 'auth' of null")
  | Some r => _connect (auth r) ReconnectCallback
  end.

(** lines 55 to 75; [options = None] is the call [connect(callback)]. *)
Definition connect (options : option ConnectOptions.t) (callback : fn) : M unit :=
  let options := default ConnectOptions.empty options in
  (if is_not_false (ConnectOptions.reconnect options) then
     set_reconnection (Some {| wait := 0;
                               delay := or_number (ConnectOptions.delay options) 1000;
                               maxDelay := or_number (ConnectOptions.maxDelay options) 5000;
                               auth := ConnectOptions.auth options |})
   else set_reconnection None) ;;
  _connect (ConnectOptions.auth options) (AppCallback callback).

(** [ws.close()] on a socket that is open or connecting *)
Definition ws_close (h : handle) : M unit :=
  emit (WsClose h) ;;
  set_readyState h CLOSING.

(** lines 119 to 132 *)
Definition disconnect : M unit :=
  set_reconnection None ;;
  c <- this ;;
  match _ws c with
  | None => ret tt
  | Some h =>
      ws <- socket h ;;
      match ws with
      | Some s =>
          if is_OPEN (readyState s) || is_CONNECTING (readyState s) then ws_close h
          else ret tt
      | None => ret tt
      end
  end.

End Client.

(** ** Events

    What happens to a client: the application calls the facade, a socket
    fires one of its four events, a reconnect timer expires.  A socket fires
    [open] only while connecting, messages only once open, and nothing after
    its [close]; a timer fires only if one is pending. *)

Inductive event : Type :=
  | Connect (options : option ConnectOptions.t) (callback : fn)
  | Disconnect
  | Request (options : string + RequestOptions.t) (callback : fn)
  | Authenticate (token : value) (callback : fn)
  | Open (h : handle)
  | Error (h : handle) (message : string)
  | Close (h : handle)
  | Message (h : handle) (data : string)
  | Timeout.

Definition is_CLOSED (s : ReadyState) : bool :=
  match s with CLOSED => true | _ => false end.

Definition is_CLOSING (s : ReadyState) : bool :=
  match s with CLOSING => true | _ => false end.

(** A pending timer expires. *)
Definition clear_timer : M unit := λ w,
  (Normal tt, {| self := self w; sockets := sockets w; timers := pred (timers w) |}, []).

(** The number of timers set and not yet fired *)
Definition pending_timers : M nat := λ w, (Normal (timers w), w, []).

Section Events.

Variable JSON_stringify : value → string + string.
Variable JSON_parse : string → string + value.
Variable ws_send : handle → value → option string.

(** The handler that an event runs, after the transport has moved the
    socket to its new ready state. *)
Definition deliver (e : event) : M unit :=
  match e with
  | Connect options callback => connect options callback
  | Disconnect => disconnect
  | Request options callback => request JSON_stringify ws_send options callback
  | Authenticate token callback =>
      authenticate JSON_stringify ws_send token (AppCallback callback)
  | Open h =>
      ws <- socket h ;;
      match ws with
      | Some s =>
          if is_CONNECTING (readyState s) then
            set_readyState h OPEN ;;
            ws_onopen JSON_stringify ws_send h s
          else ret tt
      | None => ret tt
      end
  | Error h message =>
      ws <- socket h ;;
      match ws with
      | Some s =>
          if is_CLOSED (readyState s) then ret tt
          else ws_onerror h s (VError message)
      | None => ret tt
      end
  | Close h =>
      ws <- socket h ;;
      match ws with
      | Some s =>
          if is_CLOSED (readyState s) then ret tt
          else set_readyState h CLOSED ;; ws_onclose
      | None => ret tt
      end
  | Message h data =>
      ws <- socket h ;;
      match ws with
      | Some s =>
          if is_OPEN (readyState s) || is_CLOSING (readyState s) then
            ws_onmessage JSON_parse data
          else ret tt
      | None => ret tt
      end
  | Timeout =>
      n <- pending_timers ;;
      match n with
      | O => ret tt
      | S _ => clear_timer ;; reconnect_timer
      end
  end.

(** One event, with an exception that leaves the handler put on the log. *)
Definition step (w : World) (e : event) : World * list effect :=
  match deliver e w with
  | (Normal _, w', log) => (w', log)
  | (Throw x, w', log) => (w', log ++ [Uncaught x])
  end.

(** A sequence of events, one handler after the other. *)
Fixpoint run (w : World) (events : list event) : World * list effect :=
  match events with
  | [] => (w, [])
  | e :: rest =>
      let (w1, log1) := step w e in
      let (w2, log2) := run w1 rest in
      (w2, log1 ++ log2)
  end.

End Events.

(** ** A concrete codec and transport for examples

    Outgoing text is not inspected by the client, so one text serves for all
    messages; incoming texts are those of a small table. *)

Definition demo_stringify (message : value) : string + string := inr "{...}".

Definition demo_wire : list (string * value) :=
  [ ("response 1 200",
     VObj [("nes", VStr "response"); ("id", VNum 1); ("statusCode", VNum 200);
           ("payload", VStr "hello"); ("headers", VObj [])]);
    ("response 2 404",
     VObj [("nes", VStr "response"); ("id", VNum 2); ("statusCode", VNum 404);
           ("payload", VObj [("message", VStr "not found")]); ("headers", VObj [])]);
    ("response 1 500 no payload",
     VObj [("nes", VStr "response"); ("id", VNum 1); ("statusCode", VNum 500)]);
    ("auth 1", VObj [("nes", VStr "auth"); ("id", VNum 1)]);
    ("auth 1 denied",
     VObj [("nes", VStr "auth"); ("id", VNum 1); ("error", VStr "Invalid token")]);
    ("broadcast", VObj [("nes", VStr "broadcast"); ("message", VStr "news")]);
    ("other 1", VObj [("nes", VStr "other"); ("id", VNum 1)]);
    ("unprintable kind 1",
     VObj [("nes", VObj [("toString", VNum 1)]); ("id", VNum 1)]);
    ("response toString", VObj [("nes", VStr "response"); ("id", VStr "toString")]);
    ("response __proto__", VObj [("nes", VStr "response"); ("id", VStr "__proto__")]) ].

Definition demo_parse (data : string) : string + value :=
  match assoc data demo_wire with
  | Some v => inr v
  | None => inl "Unexpected token"
  end.

Definition demo_send (h : handle) (data : value) : option string := None.

Definition demo_run : World → list event → World * list effect :=
  run demo_stringify demo_parse demo_send.

(** * Vocabulary of the statements *)

(** A relation between the world before, the log written and the world
    after that holds of doing nothing and composes along a body. *)
Class Composable (R : World → list effect → World → Prop) : Prop := {
  composable_nil : ∀ w, R w [] w;
  composable_app : ∀ w1 l1 w2 l2 w3, R w1 l1 w2 → R w2 l2 w3 → R w1 (l1 ++ l2) w3
}.

(** Every run of [m] is in [R]. *)
Definition respects {A} (R : World → list effect → World → Prop) (m : M A) : Prop :=
  ∀ w, R w (m w).2 (m w).1.2.

(** The pending table, the counter, the current socket and the sockets'
    states are as before. *)
Definition untouched : World → list effect → World → Prop := λ w _ w',
  _requests (self w') = _requests (self w) ∧ _ids (self w') = _ids (self w)
  ∧ _ws (self w') = _ws (self w) ∧ sockets w' = sockets w.

(** The function that finally receives what a stored callback is called
    with when it is called with an error. *)
Definition receiver (k : request_callback) : connect_callback :=
  match k with
  | RequestCallback callback => AppCallback callback
  | AuthenticateCallback callback => callback
  end.

(** The socket that [_send] may use: [this._ws] if it is set and open. *)
Definition open_socket (w : World) : option handle :=
  match _ws (self w) with
  | Some h =>
      match sockets w !! h with
      | Some s => if is_OPEN (readyState s) then Some h else None
      | None => None
      end
  | None => None
  end.

(** [o.name] where [o] is known not to be undefined or null *)
Definition property (o : value) (name : string) : value :=
  match get_property o name with
  | Normal v => v
  | Throw _ => VUndefined
  end.

(** The id that a value names when it is used as a property name of
    [_requests]. *)
Definition id_of (v : value) : option N :=
  match to_property_key v with
  | Normal key => own_key key
  | Throw _ => None
  end.

(** The kind that the closure stored by [request], resp. [authenticate],
    accepts. *)
Definition expected_kind (k : request_callback) : string :=
  match k with
  | RequestCallback _ => "response"
  | AuthenticateCallback _ => "auth"
  end.

(** [statusCode >= 400 && statusCode <= 599] for a number *)
Definition in_error_range (n : Z) : bool := (400 <=? n)%Z && (n <=? 599)%Z.

(** What a log shows of callbacks being called: a call of an application
    function, and the [onError] with which the reconnect closure begins when
    it is called with an error (within [_onClose] nothing else calls
    [onError]). *)
Definition invocation (e : effect) : option (connect_callback * list value) :=
  match e with
  | Call f args => Some (AppCallback f, args)
  | OnError err => Some (ReconnectCallback, [err])
  | _ => None
  end.

(** The calls of application functions that a log shows. *)
Definition calls (log : list effect) : list (fn * list value) :=
  omap (λ e, match e with Call f args => Some (f, args) | _ => None end) log.

(** The callbacks of a table in the order of [Object.keys]. *)
Definition pending (t : gmap N request_callback) : list request_callback :=
  omap (λ id, t !! id) (Object_keys t).

(** Events that neither install a policy nor delete pending entries *)
Definition plain_event (e : event) : Prop :=
  match e with
  | Connect _ _ | Message _ _ | Close _ => False
  | _ => True
  end.

(** The application calls [connect]. *)
Definition is_Connect (e : event) : bool :=
  match e with
  | Connect _ _ => true
  | _ => false
  end.

(** The delays of the timers that a log sets, in order. *)
Definition timeouts (log : list effect) : list Z :=
  omap (λ e, match e with SetTimeout ms => Some ms | _ => None end) log.

(** The policy after [n] more backoff cycles. *)
Definition advance (r : Reconnection) (n : nat) : Reconnection :=
  {| wait := wait r + Z.of_nat n * delay r; delay := delay r;
     maxDelay := maxDelay r; auth := auth r |}.

(** The waits of the next [n] cycles of a policy: the accumulated wait
    after each, capped. *)
Definition schedule (r : Reconnection) (n : nat) : list Z :=
  (λ k : nat, Z.min (wait r + Z.of_nat k * delay r) (maxDelay r)) <$> seq 1 n.

(** Between two worlds the policy has gone through some number of cycles,
    each of which set its timer, and may then have been dropped; no policy
    appears where there was none. *)
Definition backs_off : World → list effect → World → Prop := λ w log w',
  match _reconnection (self w) with
  | Some r =>
      ∃ n, timeouts log = schedule r n
           ∧ (_reconnection (self w') = Some (advance r n)
              ∨ _reconnection (self w') = None)
  | None => timeouts log = [] ∧ _reconnection (self w') = None
  end.

(** Every pending id lies between 1 and the counter. *)
Definition ids_bounded (w : World) : Prop :=
  ∀ id, is_Some (_requests (self w) !! id) → (1 ≤ id ≤ _ids (self w))%N.

(** The counter does not go down, and an entry that is new has an id above
    the old counter and up to the new one. *)
Definition ids_grow : World → list effect → World → Prop := λ w _ w',
  (_ids (self w) ≤ _ids (self w'))%N
  ∧ ∀ id k, _requests (self w') !! id = Some k →
            _requests (self w) !! id = Some k
            ∨ (_ids (self w) < id ≤ _ids (self w'))%N.

(** The counter does not go down, and entries with ids up to the counter
    stay as they are. *)
Definition keeps : World → list effect → World → Prop := λ w _ w',
  (_ids (self w) ≤ _ids (self w'))%N
  ∧ ∀ id k, (id ≤ _ids (self w))%N →
            _requests (self w) !! id = Some k → _requests (self w') !! id = Some k.

(** The pending table and the counter are as before. *)
Definition requests_same : World → list effect → World → Prop := λ w _ w',
  _requests (self w') = _requests (self w) ∧ _ids (self w') = _ids (self w).

(** The sockets that a log creates, in order. *)
Definition opened (log : list effect) : list handle :=
  omap (λ e, match e with NewWS h => Some h | _ => None end) log.

(** No socket is created. *)
Definition opens_nothing : World → list effect → World → Prop := λ w log w',
  opened log = [] ∧ length (sockets w') = length (sockets w).

(** Events whose handlers reach neither [_send] nor a [delete]. *)
Definition away_from_requests (e : event) : bool :=
  match e with
  | Connect _ _ | Disconnect | Error _ _ | Timeout => true
  | _ => false
  end.

(** Events whose handlers reach [_connect]. *)
Definition connects (e : event) : bool :=
  match e with
  | Connect _ _ | Timeout => true
  | _ => false
  end.

(** * Reasoning about handler bodies *)

(** A first part that returns hands its world on to the rest. *)
Lemma bind_quiet {A B} (m : M A) (k : A → M B) w a w1 :
  m w = (Normal a, w1, []) → bind m k w = k a w1.
Proof.
  intros H. unfold bind. rewrite H. destruct (k a w1) as [[r w2] l2]. reflexivity.
Qed.

Lemma bind_normal {A B} (m : M A) (k : A → M B) w a w1 l1 :
  m w = (Normal a, w1, l1) →
  bind m k w = ((k a w1).1.1, (k a w1).1.2, l1 ++ (k a w1).2).
Proof.
  intros H. unfold bind. rewrite H. destruct (k a w1) as [[r w2] l2]. reflexivity.
Qed.

(** ** Relations that every step of a body respects

    For a composable relation it is enough to check the primitive
    operations that a body is made of. *)

Section Respects.

Context (R : World → list effect → World → Prop) `{!Composable R}.

Lemma respects_ret {A} (a : A) : respects R (ret a).
Proof. intros w. apply composable_nil. Qed.

Lemma respects_throw {A} (e : exn) : respects R (@throw A e).
Proof. intros w. apply composable_nil. Qed.

Lemma respects_lift {A} (c : completion A) : respects R (lift c).
Proof. destruct c; [apply respects_ret | apply respects_throw]. Qed.

Lemma respects_this : respects R this.
Proof. intros w. apply composable_nil. Qed.

Lemma respects_socket h : respects R (socket h).
Proof. intros w. apply composable_nil. Qed.

Lemma respects_pending_timers : respects R pending_timers.
Proof. intros w. apply composable_nil. Qed.

Lemma respects_bind {A B} (m : M A) (k : A → M B) :
  respects R m → (∀ a, respects R (k a)) → respects R (bind m k).
Proof.
  intros Hm Hk w. unfold bind.
  specialize (Hm w). destruct (m w) as [[[a | e] w1] l1]; cbn in *; [ | exact Hm].
  specialize (Hk a w1). destruct (k a w1) as [[r w2] l2]; cbn in *.
  eapply composable_app; eassumption.
Qed.

Lemma respects_for_each {A} (l : list A) (body : A → M unit) :
  (∀ x, respects R (body x)) → respects R (for_each l body).
Proof.
  intros Hbody. induction l as [ | x rest IH]; cbn [for_each].
  - apply respects_ret.
  - apply respects_bind; [apply Hbody | intros _; exact IH].
Qed.

Lemma respects_lookup_request key : respects R (lookup_request key).
Proof. intros w. apply composable_nil. Qed.

Lemma respects_ge v k : respects R (ge v k).
Proof. apply respects_bind; [apply respects_lift | intros; apply respects_ret]. Qed.

Lemma respects_le v k : respects R (le v k).
Proof. apply respects_bind; [apply respects_lift | intros; apply respects_ret]. Qed.

Lemma respects_concat text v : respects R (concat text v).
Proof. apply respects_bind; [apply respects_lift | intros; apply respects_ret]. Qed.

Lemma respects_lookup_property key : respects R (lookup_property key).
Proof. intros w. apply composable_nil. Qed.

End Respects.

(** Splits a goal [respects R body] along the structure of [body]; what is
    left are calls of operations, for the hint database [respects]. *)
Ltac respects_step :=
  lazymatch goal with
  | |- respects ?R (bind _ _) => apply (respects_bind R); [ | intros ? ]
  | |- respects ?R (ret _) => apply (respects_ret R)
  | |- respects ?R (throw _) => apply (respects_throw R)
  | |- respects ?R (lift _) => apply (respects_lift R)
  | |- respects ?R this => apply (respects_this R)
  | |- respects ?R (socket _) => apply (respects_socket R)
  | |- respects ?R pending_timers => apply (respects_pending_timers R)
  | |- respects ?R (lookup_request _) => apply (respects_lookup_request R)
  | |- respects ?R (ge _ _) => apply (respects_ge R)
  | |- respects ?R (le _ _) => apply (respects_le R)
  | |- respects ?R (concat _ _) => apply (respects_concat R)
  | |- respects ?R (lookup_property _) => apply (respects_lookup_property R)
  | |- respects ?R (for_each _ _) => apply (respects_for_each R); intros ?
  | |- respects _ (if ?b then _ else _) => destruct b
  | |- respects _ (match ?x with _ => _ end) => destruct x
  end.

Create HintDb respects discriminated.

Ltac respects_auto :=
  repeat first [ solve [ auto 2 with respects nocore ] | respects_step ].

(** ** Callbacks leave the correlator alone

    Calling a stored callback, whatever its arguments, changes neither the
    pending table nor the counter, the current socket or any socket's state:
    the closures of [request], [authenticate] and [_reconnect] only call the
    application and the hooks and schedule a timer. *)

#[export] Instance untouched_composable : Composable untouched.
Proof.
  split; [done | ].
  intros w1 l1 w2 l2 w3 (? & ? & ? & ?) (? & ? & ? & ?).
  repeat split; congruence.
Qed.

Lemma untouched_emit e : respects untouched (emit e).
Proof. done. Qed.

Lemma untouched_set_reconnection r : respects untouched (set_reconnection r).
Proof. done. Qed.

Lemma untouched_setTimeout ms : respects untouched (setTimeout ms).
Proof. done. Qed.

#[export] Hint Resolve untouched_emit untouched_set_reconnection untouched_setTimeout
  : respects.

Lemma untouched_reconnect : respects untouched _reconnect.
Proof. unfold _reconnect. respects_auto. Qed.

#[export] Hint Resolve untouched_reconnect : respects.

Lemma untouched_apply_connect_callback callback args :
  respects untouched (apply_connect_callback callback args).
Proof. unfold apply_connect_callback. respects_auto. Qed.

#[export] Hint Resolve untouched_apply_connect_callback : respects.

Lemma untouched_apply_request_callback k args :
  respects untouched (apply_request_callback k args).
Proof. unfold apply_request_callback. respects_auto. Qed.

#[export] Hint Resolve untouched_apply_request_callback : respects.

Lemma apply_request_callback_error k err rest :
  truthy err = true →
  apply_request_callback k (err :: rest) = apply_connect_callback (receiver k) [err].
Proof.
  intros Herr. destruct k; unfold apply_request_callback; cbn [arg nth receiver];
    rewrite Herr; reflexivity.
Qed.

Lemma apply_connect_callback_returns callback args w :
  (apply_connect_callback callback args w).1.1 = Normal tt.
Proof.
  destruct callback as [f | ]; [reflexivity | ].
  unfold apply_connect_callback, _reconnect.
  destruct (truthy (arg 0 args)); [ | reflexivity].
  unfold bind, this, emit. cbn.
  destruct (_reconnection (self w)); reflexivity.
Qed.

(** * The request correlator: [_send] *)

Section Send.

Variable JSON_stringify : value → string + string.
Variable ws_send : handle → value → option string.

Lemma send_unfold request k w :
  _send JSON_stringify ws_send request k w =
  match open_socket w with
  | None => apply_request_callback k [VError "Disconnected"] w
  | Some h =>
      let id := N.succ (_ids (self w)) in
      let w1 := with_self (with_ids id) w in
      match JSON_stringify (VObj (set_property request "id" (VNum (Z.of_N id)))) with
      | inl err => apply_request_callback k [VError err] w1
      | inr text =>
          match ws_send h (VStr text) with
          | None =>
              (Normal tt,
               with_self (with_requests (<[id := k]> (_requests (self w)))) w1,
               [WsSend h (VStr text)])
          | Some err =>
              apply_request_callback k [VError err]
                (with_self (with_requests (delete id (<[id := k]> (_requests (self w))))) w1)
          end
      end
  end.
Proof.
  unfold _send, open_socket, stringify.
  erewrite bind_quiet by reflexivity.
  destruct (_ws (self w)) as [h | ]; [ | reflexivity].
  erewrite bind_quiet by reflexivity.
  destruct (sockets w !! h) as [s | ]; cbn [from_option negb]; [ | reflexivity].
  destruct (is_OPEN (readyState s)); cbn [negb]; [ | reflexivity].
  erewrite bind_quiet by reflexivity. cbv zeta.
  destruct (JSON_stringify _) as [err | text]; cbn [truthy]; [reflexivity | ].
  erewrite bind_quiet by reflexivity.
  destruct (ws_send h (VStr text)) as [err | ]; [ | reflexivity].
  erewrite bind_quiet by reflexivity.
  reflexivity.
Qed.

(** C5.  The four outcomes of [_send(request, callback)].  Without an open
    socket the callback gets [Error('Disconnected')] at once and neither the
    table nor the counter changes.  With one, the counter is pre-incremented
    to [id]; if [JSON.stringify] throws, the callback gets that error and
    the table is as before; if [ws.send] throws, the entry just stored under
    [id] is deleted again, which restores the table, and the callback gets
    that error; otherwise the callback is stored under [id], the text is sent
    and nothing is called. *)
Theorem send_outcomes request callback w :
  _requests (self w) !! N.succ (_ids (self w)) = None →
  let id := N.succ (_ids (self w)) in
  let result := _send JSON_stringify ws_send request callback w in
  let after := result.1.2 in
  match open_socket w with
  | None =>
      result = apply_connect_callback (receiver callback) [VError "Disconnected"] w
      ∧ _requests (self after) = _requests (self w)
      ∧ _ids (self after) = _ids (self w)
  | Some h =>
      _ids (self after) = id ∧
      match JSON_stringify (VObj (set_property request "id" (VNum (Z.of_N id)))) with
      | inl err =>
          result = apply_connect_callback (receiver callback) [VError err]
                     (with_self (with_ids id) w)
          ∧ _requests (self after) = _requests (self w)
      | inr text =>
          match ws_send h (VStr text) with
          | Some err =>
              result = apply_connect_callback (receiver callback) [VError err]
                         (with_self (with_ids id) w)
              ∧ _requests (self after) = _requests (self w)
          | None =>
              result = (Normal tt,
                        with_self (with_requests (<[id := callback]> (_requests (self w))))
                          (with_self (with_ids id) w),
                        [WsSend h (VStr text)])
          end
      end
  end.
Proof.
  intros Hfresh id result after. subst result after. rewrite send_unfold. fold id.
  destruct (open_socket w) as [h | ].
  - cbv zeta.
    destruct (JSON_stringify _) as [err | text].
    + rewrite apply_request_callback_error by reflexivity.
      pose proof (untouched_apply_connect_callback (receiver callback) [VError err]
                    (with_self (with_ids id) w)) as (Ht & Hi & _).
      split; [exact Hi | split; [reflexivity | exact Ht]].
    + destruct (ws_send h (VStr text)) as [err | ].
      * rewrite apply_request_callback_error by reflexivity.
        rewrite delete_insert_id by exact Hfresh.
        replace (with_self (with_requests (_requests (self w))) (with_self (with_ids id) w))
          with (with_self (with_ids id) w) by reflexivity.
        pose proof (untouched_apply_connect_callback (receiver callback) [VError err]
                      (with_self (with_ids id) w)) as (Ht & Hi & _).
        split; [exact Hi | split; [reflexivity | exact Ht]].
      * split; reflexivity.
  - rewrite apply_request_callback_error by reflexivity.
    pose proof (untouched_apply_connect_callback (receiver callback)
                  [VError "Disconnected"] w) as (Ht & Hi & _).
    split; [reflexivity | split; [exact Ht | exact Hi]].
Qed.

End Send.

(** After [connect(callback)] and the socket's [open], a first request is
    stored under id 1 and sent. *)
Lemma send_outcomes_witness :
  let w := (demo_run initial [Connect None 0; Open 0]).1 in
  let result := _send demo_stringify demo_send [("path", VStr "/")] (RequestCallback 1) w in
  _requests (self w) !! N.succ (_ids (self w)) = None
  ∧ _ids (self result.1.2) = 1%N
  ∧ _requests (self result.1.2) !! 1%N = Some (RequestCallback 1)
  ∧ result.2 = [WsSend 0 (VStr "{...}")].
Proof.
  intros w result.
  assert (Hfresh : _requests (self w) !! N.succ (_ids (self w)) = None) by reflexivity.
  split; [exact Hfresh | ].
  pose proof (send_outcomes demo_stringify demo_send [("path", VStr "/")]
                (RequestCallback 1) w Hfresh) as H.
  change (open_socket w) with (Some 0) in H.
  cbv beta iota zeta in H. destruct H as [Hid H].
  change (demo_stringify _) with (@inr string string "{...}") in H.
  change (demo_send 0 _) with (@None string) in H.
  cbv beta iota in H. fold result in Hid, H.
  split; [exact Hid | ].
  rewrite H. split; [apply lookup_insert_eq | reflexivity].
Defined.

(** * Inbound messages: [_onMessage] *)

Lemma get_property_defined o name v name' :
  get_property o name = Normal v → get_property o name' = Normal (property o name').
Proof. unfold property. destruct o; cbn; intros H; try discriminate H; reflexivity. Qed.

Lemma to_property_key_id_of v id :
  id_of v = Some id → to_property_key v = Normal (Numeral id).
Proof.
  unfold id_of. destruct (to_property_key v) as [[id' | name] | e]; try discriminate.
  intros [= ->]. reflexivity.
Qed.

Lemma concat_text prefix v text w :
  ToString v = Normal text → concat prefix v w = (Normal (prefix +:+ text), w, []).
Proof. unfold concat. intros ->. reflexivity. Qed.

Section Inbound.

Variable JSON_parse : string → string + value.

(** A message that is not a broadcast and whose id names a pending entry:
    the entry is deleted, then its callback is called with the message. *)
Lemma onMessage_correlated data update nes id k w :
  JSON_parse data = inr update →
  get_property update "nes" = Normal nes →
  is_string nes "broadcast" = false →
  id_of (property update "id") = Some id →
  _requests (self w) !! id = Some k →
  _onMessage JSON_parse data w =
  apply_request_callback k [VNull; update]
    (with_self (with_requests (delete id (_requests (self w)))) w).
Proof.
  intros Hparse Hnes Hkind Hid Hk.
  unfold _onMessage, parse. rewrite Hparse. cbn [truthy].
  rewrite Hnes. erewrite bind_quiet by reflexivity. rewrite Hkind.
  rewrite (get_property_defined _ _ _ "id" Hnes).
  erewrite bind_quiet by reflexivity.
  rewrite (to_property_key_id_of _ _ Hid).
  erewrite bind_quiet by reflexivity.
  erewrite bind_quiet by reflexivity.
  cbn [requests_property own_key]. rewrite Hk. cbn [fmap option_fmap option_map].
  erewrite bind_quiet by reflexivity.
  reflexivity.
Qed.

(** C7.  A message of kind [broadcast] goes to [onBroadcast] with its
    [message] property and that is all: the world after, and with it the
    pending table, is the world before, whatever the table holds. *)
Theorem broadcast_bypasses_table data update w :
  JSON_parse data = inr update →
  get_property update "nes" = Normal (VStr "broadcast") →
  _onMessage JSON_parse data w = (Normal tt, w, [OnBroadcast (property update "message")]).
Proof.
  intros Hparse Hnes.
  unfold _onMessage, parse. rewrite Hparse. cbn [truthy].
  rewrite Hnes. erewrite bind_quiet by reflexivity.
  cbn [is_string String.eqb Ascii.eqb Bool.eqb].
  rewrite (get_property_defined _ _ _ "message" Hnes).
  erewrite bind_quiet by reflexivity.
  reflexivity.
Qed.


End Inbound.

Lemma broadcast_bypasses_table_witness :
  demo_parse "broadcast"
  = inr (VObj [("nes", VStr "broadcast"); ("message", VStr "news")])
  ∧ _onMessage demo_parse "broadcast" initial = (Normal tt, initial, [OnBroadcast (VStr "news")]).
Proof.
  split; [reflexivity | ].
  apply (broadcast_bypasses_table demo_parse "broadcast"
           (VObj [("nes", VStr "broadcast"); ("message", VStr "news")]) initial);
    reflexivity.
Defined.



(** * The closure of [request] *)

(** When the closure that [request] stores is called with (null, message),
    the application's function is called at most once and nothing else is:
    not at all if the kind of the message is not [response], once with the
    payload, status code and headers of the message if it is and the closure
    returns, and not at all if it throws.  The world stays as it is. *)
Lemma request_closure_calls f update nes w :
  get_property update "nes" = Normal nes →
  let result := apply_request_callback (RequestCallback f) [VNull; update] w in
  result.1.2 = w
  ∧ if is_string nes "response" then
      match result.1.1 with
      | Normal _ =>
          ∃ error, result.2 = [Call f [error; property update "payload";
                                       property update "statusCode";
                                       property update "headers"]]
      | Throw _ => result.2 = []
      end
    else calls result.2 = [].
Proof.
  intros Hnes. cbv zeta. unfold apply_request_callback. cbn [arg nth truthy].
  rewrite Hnes. erewrite bind_quiet by reflexivity.
  unfold property.
  rewrite (get_property_defined _ _ _ "payload" Hnes),
    (get_property_defined _ _ _ "statusCode" Hnes),
    (get_property_defined _ _ _ "headers" Hnes).
  destruct (is_string nes "response"); cbn [negb].
  - unfold ge, le, bind, lift, ret, throw, emit.
    repeat match goal with
           | |- context [match ?x with _ => _ end] =>
               match x with
               | context [match _ with _ => _ end] => fail 1
               | _ => destruct x eqn:?
               end
           end; cbn [fst snd app] in *;
      solve [discriminate | split; [reflexivity | eauto] | split; reflexivity].
  - unfold concat, bind, lift, ret, throw, emit.
    destruct (ToString nes); split; reflexivity.
Qed.

(** X18.  The closure of [request] is called with a message of kind
    [response] whose status code is the integer [n].  If [n] is outside
    400..599 the application's callback gets (null, payload, n, headers).
    If it is inside and [new Error(update.payload.message)] can be built,
    the callback gets that error in place of null.  Nothing else happens. *)
Theorem response_delivery f update n failure w :
  get_property update "nes" = Normal (VStr "response") →
  get_property update "statusCode" = Normal (VNum n) →
  (in_error_range n = true →
   ∃ message, get_property (property update "payload") "message" = Normal message
              ∧ new_Error message = Normal failure) →
  apply_request_callback (RequestCallback f) [VNull; update] w =
  (Normal tt, w,
   [Call f [if in_error_range n then failure else VNull;
            property update "payload"; VNum n; property update "headers"]]).
Proof.
  intros Hnes Hstatus Herror.
  unfold apply_request_callback. cbn [arg nth truthy].
  rewrite Hnes. erewrite bind_quiet by reflexivity.
  cbn [is_string String.eqb Ascii.eqb Bool.eqb negb].
  rewrite Hstatus. erewrite bind_quiet by reflexivity.
  erewrite bind_quiet by reflexivity.
  rewrite !(get_property_defined _ _ _ "payload" Hnes).
  rewrite (get_property_defined _ _ _ "headers" Hnes).
  unfold in_error_range in *.
  destruct (400 <=? n)%Z; cbn [andb] in *.
  - erewrite bind_quiet by reflexivity.
    destruct (n <=? 599)%Z.
    + destruct (Herror eq_refl) as (message & Hmessage & Hfailure).
      erewrite (bind_quiet (bind _ _)).
      2: { erewrite bind_quiet by reflexivity. rewrite Hmessage.
           erewrite bind_quiet by reflexivity. rewrite Hfailure. reflexivity. }
      repeat (erewrite bind_quiet by reflexivity). reflexivity.
    + repeat (erewrite bind_quiet by reflexivity). reflexivity.
  - repeat (erewrite bind_quiet by reflexivity). reflexivity.
Qed.

(** Status 404 with payload [{message: 'not found'}]. *)
Lemma response_delivery_witness :
  let payload := VObj [("message", VStr "not found")] in
  let update := VObj [("nes", VStr "response"); ("id", VNum 2); ("statusCode", VNum 404);
                      ("payload", payload); ("headers", VObj [])] in
  get_property update "nes" = Normal (VStr "response")
  ∧ apply_request_callback (RequestCallback 2) [VNull; update] initial =
    (Normal tt, initial, [Call 2 [VError "not found"; payload; VNum 404; VObj []]]).
Proof.
  intros payload update. split; [reflexivity | ].
  apply (response_delivery 2 update 404 (VError "not found") initial);
    [reflexivity | reflexivity | ].
  intros _. exists (VStr "not found"). split; reflexivity.
Defined.

(** C6, on the code.  A request is pending under id 1 and a response for
    it arrives with status 500 and no payload.  Line 206 reads [message] of
    the missing payload before the callback is called: a TypeError leaves
    the message handler, the entry is gone and callback 1 is never called,
    although the same response with a status outside 400..599 is delivered
    with its payload undefined. *)
Lemma response_without_payload_not_delivered :
  demo_parse "response 1 500 no payload"
  = inr (VObj [("nes", VStr "response"); ("id", VNum 1); ("statusCode", VNum 500)])
  ∧ (demo_run initial [Connect None 0; Open 0; Request (inl "/") 1;
                       Message 0 "response 1 500 no payload"]).2
    = [NewWS 0; OnConnect; Call 0 []; WsSend 0 (VStr "{...}");
       Uncaught (TypeError "Cannot read property 'message' of undefined")]
  ∧ _requests (self (demo_run initial [Connect None 0; Open 0; Request (inl "/") 1;
                                       Message 0 "response 1 500 no payload"]).1) = ∅
  ∧ apply_request_callback (RequestCallback 1)
      [VNull; VObj [("nes", VStr "response"); ("id", VNum 1); ("statusCode", VNum 200)]]
      initial
    = (Normal tt, initial, [Call 1 [VNull; VUndefined; VNum 200; VUndefined]]).
Proof. repeat split; reflexivity. Qed.

(** * The facade: [request] and [connect] *)

Section Facade.

Variable JSON_stringify : value → string + string.
Variable JSON_parse : string → string + value.
Variable ws_send : handle → value → option string.

(** C8.  [request(path, callback)] is [request({method: 'GET', path: path},
    callback)]: the same body, hence the same message passed to [_send], the
    same closure stored, and the same run whatever follows. *)
Theorem bare_path_is_GET path callback :
  let options := {| RequestOptions.method := VStr "GET";
                    RequestOptions.path := VStr path;
                    RequestOptions.headers := VUndefined;
                    RequestOptions.payload := VUndefined |} in
  request JSON_stringify ws_send (inl path) callback
  = request JSON_stringify ws_send (inr options) callback
  ∧ request JSON_stringify ws_send (inl path) callback
    = _send JSON_stringify ws_send
        [("id", VNum 0); ("nes", VStr "request"); ("method", VStr "GET");
         ("path", VStr path); ("headers", VUndefined); ("payload", VUndefined)]
        (RequestCallback callback)
  ∧ ∀ w events,
      run JSON_stringify JSON_parse ws_send w (Request (inl path) callback :: events)
      = run JSON_stringify JSON_parse ws_send w (Request (inr options) callback :: events).
Proof. repeat split; reflexivity. Qed.

End Facade.

(** C9.  When reconnection is not switched off, [connect] stores a policy
    whose wait is 0; a [delay] that is 0 or absent becomes 1000 and a
    [maxDelay] that is 0 or absent becomes 5000, any other number is kept:
    neither can be stored as 0. *)
Theorem falsy_delay_defaults options callback w :
  is_not_false (ConnectOptions.reconnect options) = true →
  ∃ r, _reconnection (self (connect (Some options) callback w).1.2) = Some r
       ∧ wait r = 0%Z
       ∧ (ConnectOptions.delay options = Some 0%Z ∨ ConnectOptions.delay options = None
          → delay r = 1000%Z)
       ∧ (ConnectOptions.maxDelay options = Some 0%Z ∨ ConnectOptions.maxDelay options = None
          → maxDelay r = 5000%Z)
       ∧ (∀ d, ConnectOptions.delay options = Some d → d ≠ 0%Z → delay r = d)
       ∧ (∀ m, ConnectOptions.maxDelay options = Some m → m ≠ 0%Z → maxDelay r = m)
       ∧ delay r ≠ 0%Z ∧ maxDelay r ≠ 0%Z.
Proof.
  intros Hreconnect. unfold connect. cbv zeta.
  change (default ConnectOptions.empty (Some options)) with options.
  rewrite Hreconnect.
  eexists. split; [reflexivity | ]. cbn [wait delay maxDelay].
  assert (Hor : ∀ n d, d ≠ 0%Z →
            (n = Some 0%Z ∨ n = None → or_number n d = d)
            ∧ (∀ k, n = Some k → k ≠ 0%Z → or_number n d = k)
            ∧ or_number n d ≠ 0%Z).
  { intros n d Hd. unfold or_number, truthy.
    destruct n as [k | ].
    - destruct (Z.eqb_spec k 0) as [-> | Hk]; cbn [negb].
      + split; [reflexivity | split; [ | exact Hd]].
        intros k' [= <-] Hk'. contradiction.
      + split; [ | split; [ | exact Hk]].
        * intros [[= ->] | [=]]. contradiction.
        * intros k' [= <-] _. reflexivity.
    - split; [reflexivity | split; [ | exact Hd]]. intros k [=]. }
  destruct (Hor (ConnectOptions.delay options) 1000%Z) as (? & ? & ?); [lia | ].
  destruct (Hor (ConnectOptions.maxDelay options) 5000%Z) as (? & ? & ?); [lia | ].
  split; [reflexivity | ]. repeat (split; [assumption | ]). assumption.
Qed.

(** [connect({delay: 0, maxDelay: 0}, callback)] *)
Lemma falsy_delay_defaults_witness :
  let options := {| ConnectOptions.reconnect := VUndefined;
                    ConnectOptions.delay := Some 0%Z;
                    ConnectOptions.maxDelay := Some 0%Z;
                    ConnectOptions.auth := VUndefined |} in
  is_not_false (ConnectOptions.reconnect options) = true
  ∧ ∃ r, _reconnection (self (connect (Some options) 0 initial).1.2) = Some r
         ∧ delay r = 1000%Z ∧ maxDelay r = 5000%Z.
Proof.
  intros options. split; [reflexivity | ].
  destruct (falsy_delay_defaults options 0 initial eq_refl)
    as (r & Hr & _ & Hdelay & HmaxDelay & _).
  exists r. split; [exact Hr | ].
  split; [apply Hdelay | apply HmaxDelay]; left; reflexivity.
Defined.

(** * The reconnect timer *)

(** The function given to [setTimeout] reads [self._reconnection.auth]
    without testing [self._reconnection]: when the policy has been
    cleared it throws, before [_connect] is entered. *)
Lemma reconnect_timer_unguarded w :
  _reconnection (self w) = None →
  reconnect_timer w = (Throw (TypeError "Cannot read property 'auth' of null"), w, []).
Proof.
  intros H. unfold reconnect_timer. erewrite bind_quiet by reflexivity.
  rewrite H. reflexivity.
Qed.

(** C4, on the code: [connect(callback)], the socket opens and closes (a
    timer is set for 1000 ms), [disconnect()], the timer fires.  No socket
    is created, but not because the policy is tested: the timer function
    throws a TypeError that nothing catches. *)
Theorem timer_after_disconnect_throws :
  (demo_run initial [Connect None 0; Open 0; Close 0; Disconnect; Timeout]).2
  = [NewWS 0; OnConnect; Call 0 []; SetTimeout 1000;
     Uncaught (TypeError "Cannot read property 'auth' of null")].
Proof. reflexivity. Qed.

(** * Close handling: [_onClose] *)

Lemma reconnect_returns w : (_reconnect w).1.1 = Normal tt.
Proof.
  unfold _reconnect. erewrite bind_quiet by reflexivity.
  destruct (_reconnection (self w)); reflexivity.
Qed.

Lemma reconnect_invocations w : omap invocation (_reconnect w).2 = [].
Proof.
  unfold _reconnect. erewrite bind_quiet by reflexivity.
  destruct (_reconnection (self w)); reflexivity.
Qed.

Lemma apply_connect_callback_invocations callback err w :
  truthy err = true →
  omap invocation (apply_connect_callback callback [err] w).2 = [(callback, [err])].
Proof.
  intros Herr. destruct callback as [f | ]; [reflexivity | ].
  unfold apply_connect_callback. cbn [arg nth]. rewrite Herr.
  erewrite bind_normal by reflexivity. cbn [snd].
  cbn [omap list_omap invocation app]. rewrite reconnect_invocations. reflexivity.
Qed.

Lemma Object_keys_Permutation (t : gmap N request_callback) :
  Object_keys t ≡ₚ map fst (map_to_list t).
Proof. unfold Object_keys. apply merge_sort_Permutation. Qed.

Lemma Object_keys_NoDup (t : gmap N request_callback) : NoDup (Object_keys t).
Proof. rewrite Object_keys_Permutation. apply NoDup_fst_map_to_list. Qed.

Lemma Object_keys_elem_of (t : gmap N request_callback) id :
  id ∈ Object_keys t ↔ is_Some (t !! id).
Proof.
  rewrite Object_keys_Permutation, list_elem_of_fmap. split.
  - intros ([id' k] & -> & Hin). apply elem_of_map_to_list in Hin. eauto.
  - intros [k Hk]. exists (id, k). split; [reflexivity | ].
    apply elem_of_map_to_list. exact Hk.
Qed.

Lemma pending_Permutation (t : gmap N request_callback) :
  pending t ≡ₚ map snd (map_to_list t).
Proof.
  unfold pending. rewrite Object_keys_Permutation.
  assert (H : ∀ l : list (N * request_callback),
            (∀ id k, (id, k) ∈ l → t !! id = Some k) →
            omap (λ id, t !! id) (map fst l) = map snd l).
  { induction l as [ | [id k] l IH]; intros Hl; [reflexivity | ].
    cbn. rewrite (Hl id k) by left. f_equal. apply IH.
    intros id' k' Hin. apply Hl. right. exact Hin. }
  rewrite H; [reflexivity | ].
  intros id k Hin. apply elem_of_map_to_list. exact Hin.
Qed.

Lemma omap_agree {A B} (f g : A → option B) (l : list A) :
  (∀ x, x ∈ l → f x = g x) → omap f l = omap g l.
Proof.
  induction l as [ | x l IH]; intros H; [reflexivity | ].
  cbn. rewrite (H x) by left. rewrite IH; [reflexivity | ].
  intros y Hy. apply H. right. exact Hy.
Qed.

(** The loop of [_onClose] over a list of distinct pending ids. *)
Lemma flush_loop error ids :
  truthy error = true →
  ∀ w,
    NoDup ids →
    (∀ id, id ∈ ids → is_Some (_requests (self w) !! id)) →
    let result :=
      for_each ids (λ id,
        callback <- lookup_request (Some id) ;;
        delete_request (Some id) ;;
        match callback with
        | Some callback => apply_request_callback callback [error]
        | None => throw (TypeError "callback is not a function")
        end) w in
    result.1.1 = Normal tt
    ∧ (∀ i, _requests (self result.1.2) !! i
            = if decide (i ∈ ids) then None else _requests (self w) !! i)
    ∧ _ws (self result.1.2) = _ws (self w)
    ∧ omap invocation result.2
      = omap (λ id, (λ k, (receiver k, [error])) <$> _requests (self w) !! id) ids.
Proof.
  intros Herr. induction ids as [ | x rest IH]; intros w Hdup Hin result.
  { subst result. cbn. split; [reflexivity | ]. split; [ | split; reflexivity].
    intros i. rewrite decide_False; [reflexivity | ]. apply not_elem_of_nil. }
  apply NoDup_cons in Hdup as [Hx Hdup].
  destruct (Hin x) as [k Hk]; [left | ].
  set (w1 := with_self (with_requests (delete x (_requests (self w)))) w).
  pose proof (untouched_apply_connect_callback (receiver k) [error] w1)
    as (Htable & _ & Hws & _).
  pose proof (apply_connect_callback_returns (receiver k) [error] w1) as Hret.
  pose proof (apply_connect_callback_invocations (receiver k) error w1 Herr) as Hlog.
  destruct (apply_connect_callback (receiver k) [error] w1) as [[r w2] l2] eqn:Hbody.
  cbn [fst snd] in Htable, Hws, Hret, Hlog. subst r.
  assert (Hstep : (callback <- lookup_request (Some x) ;;
                   delete_request (Some x) ;;
                   match callback with
                   | Some callback => apply_request_callback callback [error]
                   | None => throw (TypeError "callback is not a function")
                   end) w = (Normal tt, w2, l2)).
  { erewrite bind_quiet by reflexivity.
    erewrite bind_quiet by reflexivity.
    cbn [requests_get]. rewrite Hk.
    rewrite apply_request_callback_error by exact Herr. exact Hbody. }
  subst result. cbn [for_each]. erewrite bind_normal by exact Hstep.
  cbv beta. cbn [fst snd].
  specialize (IH w2 Hdup).
  destruct IH as (IHret & IHtable & IHws & IHlog).
  { intros id Hid. rewrite Htable. unfold w1. cbn.
    rewrite lookup_delete_ne; [apply Hin; right; exact Hid | ].
    intros ->. contradiction. }
  split; [exact IHret | ]. split; [ | split].
  - intros i. rewrite IHtable, Htable. unfold w1. cbn.
    destruct (decide (i = x)) as [-> | Hne].
    + rewrite decide_False by exact Hx. rewrite lookup_delete_eq.
      rewrite decide_True by left. reflexivity.
    + rewrite lookup_delete_ne by congruence.
      destruct (decide (i ∈ rest)) as [Hi | Hi].
      * rewrite decide_True by (right; exact Hi). reflexivity.
      * rewrite decide_False; [reflexivity | ].
        intros [-> | ?]%elem_of_cons; contradiction.
  - etrans; [exact IHws | exact Hws].
  - rewrite omap_app.
    etrans; [apply (f_equal2 app); [exact Hlog | exact IHlog] | ].
    cbn [omap list_omap]. rewrite Hk. cbn.
    f_equal. apply omap_agree. intros id Hid.
    rewrite Htable. unfold w1. cbn.
    rewrite lookup_delete_ne; [reflexivity | ]. intros ->. contradiction.
Qed.

(** [_onClose] leaves no entry in the table. *)
Lemma onClose_table w : _requests (self (_onClose w).1.2) = ∅.
Proof.
  set (w0 := with_self (with_ws None) w).
  pose proof (flush_loop (VError "Disconnected") (Object_keys (_requests (self w0)))
                eq_refl w0 (Object_keys_NoDup _)) as Hloop.
  destruct Hloop as (Hret & Htable & _).
  { intros id Hid. apply Object_keys_elem_of. exact Hid. }
  destruct (for_each _ _ w0) as [[r w1] l1] eqn:Hflush.
  cbn [fst snd] in Hret, Htable. subst r.
  pose proof (untouched_reconnect w1) as (Htable' & _).
  assert (Hclose : (_onClose w).1.2 = (_reconnect w1).1.2).
  { unfold _onClose. erewrite bind_quiet by reflexivity.
    erewrite bind_quiet by reflexivity.
    erewrite bind_normal by exact Hflush. reflexivity. }
  rewrite Hclose, Htable'. apply map_eq. intros i. rewrite Htable, lookup_empty.
  destruct (decide (i ∈ Object_keys (_requests (self w0)))) as [Hi | Hi]; [reflexivity | ].
  destruct (_requests (self w0) !! i) as [k | ] eqn:Hk; [ | reflexivity].
  exfalso. apply Hi, Object_keys_elem_of. eauto.
Qed.

(** C2.  [_onClose] returns; afterwards no socket is current and the
    pending table is empty; and the callbacks that were pending, as many
    as the table had entries, have each been called once with
    [Error('Disconnected')], in the order of their ids. *)
Theorem close_flushes_pending w :
  let result := _onClose w in
  let callbacks := pending (_requests (self w)) in
  result.1.1 = Normal tt
  ∧ _requests (self result.1.2) = ∅
  ∧ _ws (self result.1.2) = None
  ∧ omap invocation result.2
    = (λ k, (receiver k, [VError "Disconnected"])) <$> callbacks
  ∧ callbacks ≡ₚ (map_to_list (_requests (self w))).*2
  ∧ length callbacks = size (_requests (self w)).
Proof.
  intros result callbacks.
  set (w0 := with_self (with_ws None) w).
  pose proof (flush_loop (VError "Disconnected") (Object_keys (_requests (self w0)))
                eq_refl w0 (Object_keys_NoDup _)) as Hloop.
  destruct Hloop as (Hret & Htable & Hws & Hlog).
  { intros id Hid. apply Object_keys_elem_of. exact Hid. }
  destruct (for_each _ _ w0) as [[r w1] l1] eqn:Hflush.
  cbn [fst snd] in Hret, Htable, Hws, Hlog. subst r.
  pose proof (untouched_reconnect w1) as (Htable' & _ & Hws' & _).
  pose proof (reconnect_returns w1) as Hret'.
  pose proof (reconnect_invocations w1) as Hlog'.
  assert (Hclose : result = ((_reconnect w1).1.1, (_reconnect w1).1.2, l1 ++ (_reconnect w1).2)).
  { subst result. unfold _onClose.
    erewrite bind_quiet by reflexivity.
    erewrite bind_quiet by reflexivity.
    erewrite bind_normal by exact Hflush. reflexivity. }
  rewrite Hclose. cbn [fst snd].
  split; [exact Hret' | ]. split; [ | split; [ | split; [ | split]]].
  - apply map_eq. intros i. rewrite Htable', Htable, lookup_empty.
    destruct (decide (i ∈ Object_keys (_requests (self w0)))) as [Hi | Hi]; [reflexivity | ].
    destruct (_requests (self w0) !! i) as [k | ] eqn:Hk; [ | reflexivity].
    exfalso. apply Hi, Object_keys_elem_of. eauto.
  - rewrite Hws', Hws. reflexivity.
  - rewrite omap_app, Hlog', app_nil_r, Hlog.
    subst callbacks. unfold pending. rewrite list_fmap_omap. reflexivity.
  - apply pending_Permutation.
  - subst callbacks. rewrite pending_Permutation, length_fmap.
    apply length_map_to_list.
Qed.

(** * Relations that hold across events

    A composable relation that the primitive operations respect is
    respected by every handler built from them, and so by whole runs. *)

Section Handlers.

Context (R : World → list effect → World → Prop) `{!Composable R}.

Variable JSON_stringify : value → string + string.
Variable JSON_parse : string → string + value.
Variable ws_send : handle → value → option string.

Hypothesis R_emit : ∀ e, (∀ ms, e ≠ SetTimeout ms) → respects R (emit e).
Hypothesis R_set_ws : ∀ ws, respects R (set_ws ws).
Hypothesis R_update_socket : ∀ h f, respects R (update_socket h f).
Hypothesis R_new_WS : ∀ auth callback, respects R (new_WS auth callback).
Hypothesis R_clear_timer : respects R clear_timer.
Hypothesis R_policy_off : respects R (set_reconnection None).
Hypothesis R_reconnect : respects R _reconnect.
Hypothesis R_send :
  ∀ request callback, respects R (_send JSON_stringify ws_send request callback).

#[local] Hint Extern 1 (respects R (emit _)) =>
  apply R_emit; intros ?; discriminate : respects.
#[local] Hint Resolve R_set_ws R_update_socket R_new_WS R_clear_timer R_policy_off
  R_reconnect R_send : respects.

Lemma respects_apply_connect_callback callback args :
  respects R (apply_connect_callback callback args).
Proof. unfold apply_connect_callback. respects_auto. Qed.

#[local] Hint Resolve respects_apply_connect_callback : respects.

Lemma respects_apply_request_callback k args :
  respects R (apply_request_callback k args).
Proof. unfold apply_request_callback. respects_auto. Qed.

#[local] Hint Resolve respects_apply_request_callback : respects.

Lemma respects_authenticate token callback :
  respects R (authenticate JSON_stringify ws_send token callback).
Proof. unfold authenticate. respects_auto. Qed.

Lemma respects_request options callback :
  respects R (request JSON_stringify ws_send options callback).
Proof. unfold request. respects_auto. Qed.

Lemma respects_connect_socket auth callback : respects R (_connect auth callback).
Proof. unfold _connect. respects_auto. Qed.

#[local] Hint Resolve respects_authenticate respects_request respects_connect_socket
  : respects.

Lemma respects_ws_onopen h ws : respects R (ws_onopen JSON_stringify ws_send h ws).
Proof. unfold ws_onopen, set_sentCallback. respects_auto. Qed.

Lemma respects_ws_onerror h ws err : respects R (ws_onerror h ws err).
Proof. unfold ws_onerror, set_sentCallback. respects_auto. Qed.

Lemma respects_reconnect_timer : respects R reconnect_timer.
Proof. unfold reconnect_timer. respects_auto. Qed.

Lemma respects_disconnect : respects R disconnect.
Proof. unfold disconnect, ws_close, set_readyState. respects_auto. Qed.

#[local] Hint Resolve respects_ws_onopen respects_ws_onerror respects_reconnect_timer
  respects_disconnect : respects.

Lemma respects_plain_event e :
  plain_event e → respects R (deliver JSON_stringify JSON_parse ws_send e).
Proof.
  destruct e; cbn [plain_event]; intros He; try contradiction;
    unfold deliver, set_readyState; respects_auto.
Qed.

Section Deleting.

Hypothesis R_delete : ∀ key, respects R (delete_request key).

#[local] Hint Resolve R_delete : respects.

Lemma respects_onMessage data : respects R (_onMessage JSON_parse data).
Proof. unfold _onMessage, parse. respects_auto. Qed.

Lemma respects_onClose : respects R _onClose.
Proof. unfold _onClose. respects_auto. Qed.

#[local] Hint Resolve respects_onMessage respects_onClose : respects.

Lemma respects_later_event e :
  is_Connect e = false → respects R (deliver JSON_stringify JSON_parse ws_send e).
Proof.
  destruct e; cbn [is_Connect]; intros He; try discriminate He;
    unfold deliver, set_readyState, ws_onclose, ws_onmessage; respects_auto.
Qed.

Hypothesis R_policy : ∀ r, respects R (set_reconnection r).

#[local] Hint Resolve R_policy : respects.

Lemma respects_connect options callback : respects R (connect options callback).
Proof. unfold connect. respects_auto. Qed.

Lemma respects_event e : respects R (deliver JSON_stringify JSON_parse ws_send e).
Proof.
  destruct (is_Connect e) eqn:He; [ | apply respects_later_event; exact He].
  destruct e; try discriminate He. apply respects_connect.
Qed.

End Deleting.

(** From handlers to steps and runs *)
Lemma respects_step_event w e :
  respects R (deliver JSON_stringify JSON_parse ws_send e) →
  R w (step JSON_stringify JSON_parse ws_send w e).2
      (step JSON_stringify JSON_parse ws_send w e).1.
Proof.
  intros He. specialize (He w). unfold step.
  destruct (deliver _ _ _ e w) as [[[[] | x] w1] l1]; cbn [fst snd] in *; [exact He | ].
  eapply composable_app; [exact He | ].
  apply (R_emit (Uncaught x)). intros ?; discriminate.
Qed.

Lemma respects_run_events events :
  ∀ w,
    Forall (λ e, respects R (deliver JSON_stringify JSON_parse ws_send e)) events →
    R w (run JSON_stringify JSON_parse ws_send w events).2
        (run JSON_stringify JSON_parse ws_send w events).1.
Proof.
  induction events as [ | e rest IH]; intros w Hall; cbn [run].
  - apply composable_nil.
  - apply Forall_cons in Hall as [He Hrest].
    pose proof (respects_step_event w e He) as Hstep.
    destruct (step _ _ _ w e) as [w1 l1]. cbn [fst snd] in Hstep.
    specialize (IH w1 Hrest).
    destruct (run _ _ _ w1 rest) as [w2 l2]. cbn [fst snd] in *.
    eapply composable_app; eassumption.
Qed.

End Handlers.

(** * Reconnection: the backoff schedule *)

Lemma advance_0 r : advance r 0 = r.
Proof. destruct r. unfold advance. cbn. f_equal. lia. Qed.

Lemma advance_add r n1 n2 : advance (advance r n1) n2 = advance r (n1 + n2).
Proof. unfold advance. cbn. f_equal. lia. Qed.

Lemma schedule_add r n1 n2 :
  schedule r n1 ++ schedule (advance r n1) n2 = schedule r (n1 + n2).
Proof.
  unfold schedule. rewrite seq_app, fmap_app. f_equal.
  rewrite (Nat.add_comm 1 n1), <- (fmap_add_seq n1 1 n2), <- list_fmap_compose.
  apply list_fmap_ext. intros _ k _. cbn. f_equal. lia.
Qed.

#[export] Instance backs_off_composable : Composable backs_off.
Proof.
  split.
  - intros w. unfold backs_off. destruct (_reconnection (self w)) as [r | ]; [ | done].
    exists 0. rewrite advance_0. split; [reflexivity | left; reflexivity].
  - intros w1 l1 w2 l2 w3. unfold backs_off, timeouts. rewrite omap_app.
    destruct (_reconnection (self w1)) as [r | ].
    + intros (n1 & Hl1 & [H2 | H2]); rewrite H2.
      * intros (n2 & Hl2 & H3). exists (n1 + n2).
        rewrite advance_add in H3. rewrite <- schedule_add.
        split; [ | exact H3]. unfold timeouts in *. rewrite Hl1, Hl2. reflexivity.
      * intros (Hl2 & H3). exists n1. unfold timeouts in *.
        rewrite Hl1, Hl2, app_nil_r. split; [reflexivity | right; exact H3].
    + intros (Hl1 & H2). rewrite H2. intros (Hl2 & H3).
      unfold timeouts in *. rewrite Hl1, Hl2. split; [reflexivity | exact H3].
Qed.

Lemma backs_off_same w log w' :
  _reconnection (self w') = _reconnection (self w) →
  timeouts log = [] →
  backs_off w log w'.
Proof.
  intros Hsame Hlog. unfold backs_off. rewrite Hlog, Hsame.
  destruct (_reconnection (self w)) as [r | ]; [ | done].
  exists 0. rewrite advance_0. split; [reflexivity | left; reflexivity].
Qed.

Lemma backs_off_emit e : (∀ ms, e ≠ SetTimeout ms) → respects backs_off (emit e).
Proof.
  intros He w. apply backs_off_same; [reflexivity | ].
  destruct e; try reflexivity. destruct (He ms). reflexivity.
Qed.

Lemma backs_off_set_ws ws : respects backs_off (set_ws ws).
Proof. intros w. apply backs_off_same; reflexivity. Qed.

Lemma backs_off_update_socket h f : respects backs_off (update_socket h f).
Proof. intros w. apply backs_off_same; reflexivity. Qed.

Lemma backs_off_new_WS auth callback : respects backs_off (new_WS auth callback).
Proof. intros w. apply backs_off_same; reflexivity. Qed.

Lemma backs_off_clear_timer : respects backs_off clear_timer.
Proof. intros w. apply backs_off_same; reflexivity. Qed.

Lemma backs_off_next_id : respects backs_off next_id.
Proof. intros w. apply backs_off_same; reflexivity. Qed.

Lemma backs_off_store_request id k : respects backs_off (store_request id k).
Proof. intros w. apply backs_off_same; reflexivity. Qed.

Lemma backs_off_delete_request key : respects backs_off (delete_request key).
Proof. intros w. apply backs_off_same; reflexivity. Qed.

Lemma backs_off_policy_off : respects backs_off (set_reconnection None).
Proof.
  intros w. unfold backs_off. cbn.
  destruct (_reconnection (self w)) as [r | ]; [ | done].
  exists 0. split; [reflexivity | right; reflexivity].
Qed.

(** One cycle: [_reconnect] with a policy adds [delay] to [wait] and sets
    one timer for the smaller of the new [wait] and [maxDelay]. *)
Lemma reconnect_cycle w r :
  _reconnection (self w) = Some r →
  _reconnect w =
  (Normal tt,
   {| self := with_reconnection (Some (advance r 1)) (self w);
      sockets := sockets w; timers := S (timers w) |},
   [SetTimeout (Z.min (wait r + delay r) (maxDelay r))]).
Proof.
  intros Hr. unfold _reconnect. erewrite bind_quiet by reflexivity. rewrite Hr.
  erewrite bind_quiet by reflexivity.
  unfold advance. replace (Z.of_nat 1 * delay r)%Z with (delay r) by lia.
  reflexivity.
Qed.

Lemma backs_off_reconnect : respects backs_off _reconnect.
Proof.
  intros w. destruct (_reconnection (self w)) as [r | ] eqn:Hr.
  - rewrite (reconnect_cycle w r Hr). unfold backs_off. rewrite Hr. cbn.
    exists 1. split; [ | left; reflexivity].
    unfold schedule, timeouts. cbn [seq fmap list_fmap omap list_omap].
    replace (Z.of_nat 1 * delay r)%Z with (delay r) by lia. reflexivity.
  - unfold _reconnect. erewrite bind_quiet by reflexivity. rewrite Hr.
    apply backs_off_same; [reflexivity | reflexivity].
Qed.

#[export] Hint Resolve backs_off_set_ws backs_off_update_socket backs_off_new_WS
  backs_off_clear_timer backs_off_next_id backs_off_store_request
  backs_off_delete_request backs_off_policy_off backs_off_reconnect : respects.
#[export] Hint Extern 1 (respects backs_off (emit _)) =>
  apply backs_off_emit; intros ?; discriminate : respects.

Section Backoff.

Variable JSON_stringify : value → string + string.
Variable JSON_parse : string → string + value.
Variable ws_send : handle → value → option string.

Lemma backs_off_send request callback :
  respects backs_off (_send JSON_stringify ws_send request callback).
Proof.
  pose proof (respects_apply_request_callback backs_off backs_off_emit backs_off_reconnect).
  unfold _send, stringify. respects_auto.
Qed.

(** Every event other than a call of [connect] leaves the policy to its
    cycles. *)
Lemma backs_off_event e :
  is_Connect e = false →
  respects backs_off (deliver JSON_stringify JSON_parse ws_send e).
Proof.
  exact (respects_later_event backs_off JSON_stringify JSON_parse ws_send
           backs_off_emit backs_off_set_ws backs_off_update_socket backs_off_new_WS
           backs_off_clear_timer backs_off_policy_off backs_off_reconnect
           backs_off_send backs_off_delete_request e).
Qed.

(** The close of a socket with no request pending: under a policy
    [_onClose] goes through one cycle and does nothing else to the outside. *)
Lemma close_cycle h s r w :
  sockets w !! h = Some s →
  is_CLOSED (readyState s) = false →
  _requests (self w) = ∅ →
  _reconnection (self w) = Some r →
  let result := step JSON_stringify JSON_parse ws_send w (Close h) in
  result.2 = [SetTimeout (Z.min (wait r + delay r) (maxDelay r))]
  ∧ _reconnection (self result.1)
    = Some {| wait := wait r + delay r; delay := delay r;
              maxDelay := maxDelay r; auth := auth r |}
  ∧ timers result.1 = S (timers w).
Proof.
  intros Hs Hstate Htable Hr. cbv zeta. unfold step, deliver.
  erewrite bind_quiet by (unfold socket; rewrite Hs; reflexivity).
  cbv beta iota. rewrite Hstate. unfold set_readyState.
  erewrite bind_quiet by reflexivity.
  unfold ws_onclose.
  match goal with |- context [_onClose ?x] => set (w1 := x) end.
  assert (Hclose : _onClose w1 = _reconnect (with_self (with_ws None) w1)).
  { unfold _onClose. erewrite bind_quiet by reflexivity.
    erewrite bind_quiet by reflexivity.
    replace (Object_keys (_requests (self (with_self (with_ws None) w1)))) with (@nil N).
    - erewrite bind_quiet by reflexivity. reflexivity.
    - change (_requests (self (with_self (with_ws None) w1))) with (_requests (self w)).
      rewrite Htable. unfold Object_keys. rewrite map_to_list_empty. reflexivity. }
  rewrite Hclose.
  rewrite (reconnect_cycle (with_self (with_ws None) w1) r) by exact Hr.
  unfold advance. replace (Z.of_nat 1 * delay r)%Z with (delay r) by lia.
  repeat split.
Qed.

(** X17.  Backoff cycles.  Under a policy, [_reconnect] adds [delay] to
    [wait] and sets exactly one timer, for the smaller of the new [wait] and
    [maxDelay]; the close of a socket, with no request pending, is one such
    cycle.  After [connect(options, callback)] with reconnection not
    switched off and any events other than further [connect] calls, the
    k-th timer set waits min(k*d, m) milliseconds, [d] and [m] being the
    policy's [delay] and [maxDelay], and a policy that is still there has
    accumulated [d] times the number of timers set.  The wait was 0 after
    [connect]. *)
Theorem backoff_cycles options callback events w :
  is_not_false (ConnectOptions.reconnect options) = true →
  forallb (λ e, negb (is_Connect e)) events = true →
  let d := or_number (ConnectOptions.delay options) 1000 in
  let m := or_number (ConnectOptions.maxDelay options) 5000 in
  let connected :=
    (step JSON_stringify JSON_parse ws_send w (Connect (Some options) callback)).1 in
  let result := run JSON_stringify JSON_parse ws_send connected events in
  let n := length (timeouts result.2) in
  _reconnection (self connected)
  = Some {| wait := 0; delay := d; maxDelay := m; auth := ConnectOptions.auth options |}
  ∧ (∀ w0 r, _reconnection (self w0) = Some r →
       _reconnect w0
       = (Normal tt,
          {| self := with_reconnection
                       (Some {| wait := wait r + delay r; delay := delay r;
                                maxDelay := maxDelay r; auth := auth r |})
                       (self w0);
             sockets := sockets w0; timers := S (timers w0) |},
          [SetTimeout (Z.min (wait r + delay r) (maxDelay r))]))
  ∧ (∀ w0 h s r,
       sockets w0 !! h = Some s → is_CLOSED (readyState s) = false →
       _requests (self w0) = ∅ → _reconnection (self w0) = Some r →
       let closed := step JSON_stringify JSON_parse ws_send w0 (Close h) in
       closed.2 = [SetTimeout (Z.min (wait r + delay r) (maxDelay r))]
       ∧ _reconnection (self closed.1)
         = Some {| wait := wait r + delay r; delay := delay r;
                   maxDelay := maxDelay r; auth := auth r |}
       ∧ timers closed.1 = S (timers w0))
  ∧ timeouts result.2 = (λ k : nat, Z.min (Z.of_nat k * d) m) <$> seq 1 n
  ∧ ∀ r, _reconnection (self result.1) = Some r →
         wait r = (Z.of_nat n * d)%Z ∧ delay r = d ∧ maxDelay r = m.
Proof.
  intros Hreconnect Hevents d m connected result n.
  assert (Hconnected : _reconnection (self connected)
            = Some {| wait := 0; delay := d; maxDelay := m;
                      auth := ConnectOptions.auth options |}).
  { subst connected. unfold step, deliver, connect. cbv zeta.
    change (default ConnectOptions.empty (Some options)) with options.
    rewrite Hreconnect. reflexivity. }
  split; [exact Hconnected | ]. split.
  { intros w0 r Hr. rewrite (reconnect_cycle w0 r Hr). unfold advance.
    replace (Z.of_nat 1 * delay r)%Z with (delay r) by lia. reflexivity. }
  split; [intros w0 h s r; apply close_cycle | ].
  pose proof (respects_run_events backs_off JSON_stringify JSON_parse ws_send
                backs_off_emit events connected) as Hrun.
  unfold backs_off in Hrun. rewrite Hconnected in Hrun. fold result in Hrun.
  destruct Hrun as (n' & Hlog & Hpolicy).
  { apply Forall_forall. intros e He. apply backs_off_event.
    rewrite forallb_forall in Hevents. apply negb_true_iff, Hevents.
    apply list_elem_of_In. exact He. }
  assert (Hn : n = n').
  { subst n. rewrite Hlog. unfold schedule. rewrite length_fmap, length_seq.
    reflexivity. }
  rewrite Hn. split.
  - rewrite Hlog. unfold schedule. cbn [wait delay maxDelay].
    apply list_fmap_ext. intros _ k _. f_equal.
  - intros r Hr. destruct Hpolicy as [Hpolicy | Hpolicy]; rewrite Hpolicy in Hr;
      [ | discriminate Hr].
    injection Hr as <-. cbn. repeat split.
Qed.

End Backoff.

(** [connect(callback)] with the defaults; the socket opens and closes,
    then six reconnection attempts fail with an error and no close. *)
Lemma backoff_cycles_witness :
  let events := [Open 0; Close 0; Timeout; Error 1 "refused"; Timeout; Error 2 "refused";
                 Timeout; Error 3 "refused"; Timeout; Error 4 "refused";
                 Timeout; Error 5 "refused"; Timeout; Error 6 "refused"] in
  let connected :=
    (step demo_stringify demo_parse demo_send initial
       (Connect (Some ConnectOptions.empty) 0)).1 in
  is_not_false (ConnectOptions.reconnect ConnectOptions.empty) = true
  ∧ forallb (λ e, negb (is_Connect e)) events = true
  ∧ timeouts (demo_run connected events).2 = [1000; 2000; 3000; 4000; 5000; 5000; 5000]%Z
  ∧ timeouts (demo_run connected events).2
    = (λ k : nat, Z.min (Z.of_nat k * 1000) 5000)
        <$> seq 1 (length (timeouts (demo_run connected events).2)).
Proof.
  intros events connected.
  split; [reflexivity | ]. split; [reflexivity | ]. split; [reflexivity | ].
  destruct (backoff_cycles demo_stringify demo_parse demo_send
              ConnectOptions.empty 0 events initial eq_refl eq_refl)
    as (_ & _ & _ & Hn & _).
  exact Hn.
Defined.

(** C3, on the code.  [connect(callback)] with the defaults; the socket
    opens and closes (a timer for 1000 ms); the timer fires and the one
    attempt fails, the new socket firing [error] and then [close].  The
    error reaches the reconnect closure, which starts a cycle (2000 ms), and
    the close starts another (3000 ms): one failed attempt leaves two timers
    pending, and when both have fired two attempts are under way.  Three
    failed attempts in a row set seven timers. *)
Theorem failed_attempt_starts_two_cycles :
  let one := demo_run initial [Connect None 0; Open 0; Close 0;
                               Timeout; Error 1 "refused"; Close 1] in
  let three := demo_run initial [Connect None 0; Open 0; Close 0;
                                 Timeout; Error 1 "refused"; Close 1;
                                 Timeout; Error 2 "refused"; Close 2;
                                 Timeout; Error 3 "refused"; Close 3] in
  one.2 = [NewWS 0; OnConnect; Call 0 []; SetTimeout 1000;
           NewWS 1; OnError (VError "refused"); SetTimeout 2000; SetTimeout 3000]
  ∧ timers one.1 = 2
  ∧ (demo_run one.1 [Timeout; Timeout]).2 = [NewWS 2; NewWS 3]
  ∧ timeouts three.2 = [1000; 2000; 3000; 4000; 5000; 5000; 5000]%Z
  ∧ timers three.1 = 4.
Proof. repeat split; reflexivity. Qed.

(** * Correlation: ids and the pending table *)

#[export] Instance ids_grow_composable : Composable ids_grow.
Proof.
  split; [intros w; split; [lia | auto] | ].
  intros w1 l1 w2 l2 w3 [Hle1 Hnew1] [Hle2 Hnew2]. split; [lia | ].
  intros id k Hk. destruct (Hnew2 id k Hk) as [Hk2 | Hrange]; [ | right; lia].
  destruct (Hnew1 id k Hk2) as [Hk1 | Hrange]; [left; exact Hk1 | right; lia].
Qed.

#[export] Instance keeps_composable : Composable keeps.
Proof.
  split; [intros w; split; [lia | auto] | ].
  intros w1 l1 w2 l2 w3 [Hle1 Hkeep1] [Hle2 Hkeep2]. split; [lia | ].
  intros id k Hid Hk. apply Hkeep2; [lia | ]. apply Hkeep1; assumption.
Qed.

Lemma ids_grow_bounded w log w' : ids_grow w log w' → ids_bounded w → ids_bounded w'.
Proof.
  intros [Hle Hnew] Hbounded id [k Hk].
  destruct (Hnew id k Hk) as [Hold | Hrange]; [ | lia].
  specialize (Hbounded id (ex_intro _ k Hold)). lia.
Qed.

Lemma ids_grow_same w log w' :
  _requests (self w') = _requests (self w) → _ids (self w') = _ids (self w) →
  ids_grow w log w'.
Proof.
  intros Htable Hids. unfold ids_grow. rewrite Htable, Hids. split; [lia | auto].
Qed.

Lemma keeps_same w log w' :
  _requests (self w') = _requests (self w) → _ids (self w') = _ids (self w) →
  keeps w log w'.
Proof.
  intros Htable Hids. unfold keeps. rewrite Htable, Hids. split; [lia | auto].
Qed.

(** ** Relations that only look at the table and the counter *)

Section TableRelations.

Context (R : World → list effect → World → Prop) `{!Composable R}.

Hypothesis R_same :
  ∀ w log w',
    _requests (self w') = _requests (self w) → _ids (self w') = _ids (self w) →
    R w log w'.

Variable JSON_stringify : value → string + string.
Variable JSON_parse : string → string + value.
Variable ws_send : handle → value → option string.

Hypothesis R_send :
  ∀ request callback, respects R (_send JSON_stringify ws_send request callback).

Lemma table_emit e : respects R (emit e).
Proof. intros w. apply R_same; reflexivity. Qed.

Lemma table_set_ws ws : respects R (set_ws ws).
Proof. intros w. apply R_same; reflexivity. Qed.

Lemma table_update_socket h f : respects R (update_socket h f).
Proof. intros w. apply R_same; reflexivity. Qed.

Lemma table_new_WS auth callback : respects R (new_WS auth callback).
Proof. intros w. apply R_same; reflexivity. Qed.

Lemma table_clear_timer : respects R clear_timer.
Proof. intros w. apply R_same; reflexivity. Qed.

Lemma table_set_reconnection r : respects R (set_reconnection r).
Proof. intros w. apply R_same; reflexivity. Qed.

Lemma table_reconnect : respects R _reconnect.
Proof.
  intros w. destruct (untouched_reconnect w) as (Htable & Hids & _).
  apply R_same; assumption.
Qed.

Lemma table_apply_request_callback k args :
  respects R (apply_request_callback k args).
Proof.
  intros w. destruct (untouched_apply_request_callback k args w) as (Htable & Hids & _).
  apply R_same; assumption.
Qed.

Lemma table_plain_event e :
  plain_event e → respects R (deliver JSON_stringify JSON_parse ws_send e).
Proof.
  exact (respects_plain_event R JSON_stringify JSON_parse ws_send
           (λ e _, table_emit e) table_set_ws table_update_socket table_new_WS
           table_clear_timer (table_set_reconnection None) table_reconnect R_send e).
Qed.

Lemma table_connect options callback : respects R (connect options callback).
Proof.
  exact (respects_connect R table_set_ws table_new_WS (table_set_reconnection None)
           table_set_reconnection options callback).
Qed.

Hypothesis R_delete : ∀ key, respects R (delete_request key).

Lemma table_event e : respects R (deliver JSON_stringify JSON_parse ws_send e).
Proof.
  exact (respects_event R JSON_stringify JSON_parse ws_send
           (λ e _, table_emit e) table_set_ws table_update_socket table_new_WS
           table_clear_timer (table_set_reconnection None) table_reconnect R_send
           R_delete table_set_reconnection e).
Qed.

End TableRelations.

Section Correlation.

Variable JSON_stringify : value → string + string.
Variable JSON_parse : string → string + value.
Variable ws_send : handle → value → option string.

Lemma ids_grow_send request callback :
  respects ids_grow (_send JSON_stringify ws_send request callback).
Proof.
  intros w. rewrite send_unfold.
  destruct (open_socket w) as [h | ].
  2: { apply (table_apply_request_callback ids_grow ids_grow_same). }
  cbv zeta. set (id := N.succ (_ids (self w))).
  assert (Hnext : ids_grow w [] (with_self (with_ids id) w)).
  { split; cbn; [lia | auto]. }
  destruct (JSON_stringify _) as [err | text].
  { eapply (composable_app _ [] _ _ _ Hnext).
    apply (table_apply_request_callback ids_grow ids_grow_same). }
  destruct (ws_send h (VStr text)) as [err | ].
  - assert (Hback : ids_grow w []
              (with_self (with_requests (delete id (<[id := callback]> (_requests (self w)))))
                 (with_self (with_ids id) w))).
    { split; cbn; [lia | ]. intros i k Hk. left.
      apply lookup_delete_Some in Hk as [Hne Hk].
      rewrite lookup_insert_ne in Hk by exact Hne. exact Hk. }
    eapply (composable_app _ [] _ _ _ Hback).
    apply (table_apply_request_callback ids_grow ids_grow_same).
  - split; cbn; [lia | ]. intros i k Hk.
    destruct (decide (i = id)) as [-> | Hne]; [right; lia | left].
    rewrite lookup_insert_ne in Hk by congruence. exact Hk.
Qed.

Lemma keeps_send request callback :
  respects keeps (_send JSON_stringify ws_send request callback).
Proof.
  intros w. rewrite send_unfold.
  destruct (open_socket w) as [h | ].
  2: { apply (table_apply_request_callback keeps keeps_same). }
  cbv zeta. set (id := N.succ (_ids (self w))).
  assert (Hnext : keeps w [] (with_self (with_ids id) w)).
  { split; cbn; [lia | auto]. }
  assert (Hne : ∀ i, (i ≤ _ids (self w))%N → id ≠ i) by (intros i Hi; lia).
  destruct (JSON_stringify _) as [err | text].
  { eapply (composable_app _ [] _ _ _ Hnext).
    apply (table_apply_request_callback keeps keeps_same). }
  destruct (ws_send h (VStr text)) as [err | ].
  - assert (Hback : keeps w []
              (with_self (with_requests (delete id (<[id := callback]> (_requests (self w)))))
                 (with_self (with_ids id) w))).
    { split; cbn; [lia | ]. intros i k Hi Hk.
      rewrite lookup_delete_ne by (apply Hne; exact Hi).
      rewrite lookup_insert_ne by (apply Hne; exact Hi). exact Hk. }
    eapply (composable_app _ [] _ _ _ Hback).
    apply (table_apply_request_callback keeps keeps_same).
  - split; cbn; [lia | ]. intros i k Hi Hk.
    rewrite lookup_insert_ne by (apply Hne; exact Hi). exact Hk.
Qed.

Lemma ids_grow_delete key : respects ids_grow (delete_request key).
Proof.
  intros w. split; cbn; [lia | ]. intros i k Hk. left.
  destruct key as [id | ]; cbn [requests_delete] in Hk; [ | exact Hk].
  apply lookup_delete_Some in Hk as [_ Hk]. exact Hk.
Qed.

Lemma ids_grow_event e :
  respects ids_grow (deliver JSON_stringify JSON_parse ws_send e).
Proof.
  exact (table_event ids_grow ids_grow_same JSON_stringify JSON_parse ws_send
           ids_grow_send ids_grow_delete e).
Qed.

Lemma keeps_event e :
  (∀ h, e ≠ Close h) → (∀ h data, e ≠ Message h data) →
  respects keeps (deliver JSON_stringify JSON_parse ws_send e).
Proof.
  intros Hclose Hmessage.
  destruct e as [options callback | | | | | | h | h data | ];
    try (apply (table_plain_event keeps keeps_same JSON_stringify JSON_parse ws_send
                  keeps_send); exact I).
  - apply (table_connect keeps keeps_same).
  - destruct (Hclose h). reflexivity.
  - destruct (Hmessage h data). reflexivity.
Qed.

Lemma step_world w e :
  (step JSON_stringify JSON_parse ws_send w e).1
  = (deliver JSON_stringify JSON_parse ws_send e w).1.2.
Proof. unfold step. destruct (deliver _ _ _ e w) as [[[[] | x] w1] l1]; reflexivity. Qed.

(** Every world that a client can be in has its pending ids between 1 and
    the counter. *)
Lemma run_ids_bounded events :
  ids_bounded (run JSON_stringify JSON_parse ws_send initial events).1.
Proof.
  eapply ids_grow_bounded.
  - apply (respects_run_events ids_grow JSON_stringify JSON_parse ws_send
             (λ e _, table_emit ids_grow ids_grow_same e) events initial).
    apply Forall_forall. intros e _. apply ids_grow_event.
  - intros id [k Hk]. cbn in Hk. rewrite lookup_empty in Hk. discriminate Hk.
Qed.

(** [_send] either leaves the table as it is or stores the callback under
    the counter's next value, which it makes the counter. *)
Lemma send_registers request callback w :
  ids_bounded w →
  let sent := (_send JSON_stringify ws_send request callback w).1.2 in
  (_requests (self sent) = _requests (self w)
   ∧ (_ids (self sent) = _ids (self w) ∨ _ids (self sent) = N.succ (_ids (self w))))
  ∨ (_requests (self sent) = <[N.succ (_ids (self w)) := callback]> (_requests (self w))
     ∧ _ids (self sent) = N.succ (_ids (self w))
     ∧ _requests (self w) !! N.succ (_ids (self w)) = None).
Proof.
  intros Hbounded sent. subst sent.
  assert (Hfresh : _requests (self w) !! N.succ (_ids (self w)) = None).
  { destruct (_requests (self w) !! N.succ (_ids (self w))) as [k | ] eqn:Hk;
      [ | reflexivity].
    specialize (Hbounded _ (ex_intro _ k Hk)). lia. }
  rewrite send_unfold.
  destruct (open_socket w) as [h | ].
  2: { destruct (untouched_apply_request_callback callback [VError "Disconnected"] w)
         as (Htable & Hids & _). left. split; [exact Htable | left; exact Hids]. }
  cbv zeta. set (id := N.succ (_ids (self w))) in *.
  destruct (JSON_stringify _) as [err | text].
  { destruct (untouched_apply_request_callback callback [VError err]
                (with_self (with_ids id) w)) as (Htable & Hids & _).
    left. split; [exact Htable | right; exact Hids]. }
  destruct (ws_send h (VStr text)) as [err | ].
  - rewrite delete_insert_id by exact Hfresh.
    destruct (untouched_apply_request_callback callback [VError err]
                (with_self (with_requests (_requests (self w)))
                   (with_self (with_ids id) w))) as (Htable & Hids & _).
    left. split; [exact Htable | right; exact Hids].
  - right. split; [reflexivity | split; [reflexivity | exact Hfresh]].
Qed.

Lemma deliver_Message h data w :
  deliver JSON_stringify JSON_parse ws_send (Message h data) w = (Normal tt, w, [])
  ∨ deliver JSON_stringify JSON_parse ws_send (Message h data) w
    = _onMessage JSON_parse data w.
Proof.
  unfold deliver. erewrite bind_quiet by reflexivity.
  destruct (sockets w !! h) as [s | ]; [ | left; reflexivity].
  destruct (is_OPEN (readyState s) || is_CLOSING (readyState s));
    [right | left]; reflexivity.
Qed.

(** What [_onMessage] does to the table: nothing, or it deletes the entry
    whose id the message names, the message being no broadcast. *)
Lemma onMessage_table data w :
  let after := (_onMessage JSON_parse data w).1.2 in
  _requests (self after) = _requests (self w)
  ∨ ∃ update nes id,
      JSON_parse data = inr update
      ∧ get_property update "nes" = Normal nes
      ∧ is_string nes "broadcast" = false
      ∧ id_of (property update "id") = Some id
      ∧ _requests (self after) = delete id (_requests (self w)).
Proof.
  cbv zeta. unfold _onMessage, parse.
  destruct (JSON_parse data) as [err | update] eqn:Hparse; [left; reflexivity | ].
  cbn [truthy].
  destruct (get_property update "nes") as [nes | x] eqn:Hnes; [ | left; reflexivity].
  erewrite bind_quiet by reflexivity.
  destruct (is_string nes "broadcast") eqn:Hkind.
  { rewrite (get_property_defined _ _ _ "message" Hnes).
    erewrite bind_quiet by reflexivity. left. reflexivity. }
  rewrite (get_property_defined _ _ _ "id" Hnes).
  erewrite bind_quiet by reflexivity.
  destruct (to_property_key (property update "id")) as [key | x] eqn:Hkey;
    [ | left; reflexivity].
  erewrite bind_quiet by reflexivity.
  erewrite bind_quiet by reflexivity.
  erewrite bind_quiet by reflexivity.
  destruct key as [id | name]; cbn [requests_property own_key].
  - right. exists update, nes, id.
    split; [reflexivity | ]. split; [exact Hnes | ]. split; [exact Hkind | ].
    split; [unfold id_of; rewrite Hkey; reflexivity | ].
    destruct (_requests (self w) !! id) as [k | ]; [ | reflexivity].
    destruct (untouched_apply_request_callback k [VNull; update]
                (with_self (λ c, with_requests (delete id (_requests c)) c) w))
      as (Htable & _).
    exact Htable.
  - left. destruct (Object_prototype name) as [[ | | ] | ]; reflexivity.
Qed.


End Correlation.



(** Two requests are answered in the opposite order: callback 2 gets the
    second request's response, then callback 1 gets the first's. *)
Lemma responses_out_of_order :
  (demo_run initial [Connect None 0; Open 0; Request (inl "/a") 1; Request (inl "/b") 2;
                     Message 0 "response 2 404"; Message 0 "response 1 200"]).2
  = [NewWS 0; OnConnect; Call 0 [];
     WsSend 0 (VStr "{...}"); WsSend 0 (VStr "{...}");
     Call 2 [VError "not found"; VObj [("message", VStr "not found")]; VNum 404; VObj []];
     Call 1 [VNull; VStr "hello"; VNum 200; VObj []]].
Proof. reflexivity. Qed.

(** * Further properties of the code *)

(** ** Inbound messages *)

(** The numeral of an id reads back as that id: what [_send] stores under
    [request.id] is what [_requests[update.id]] finds for the same number. *)
Lemma id_of_number (n : N) : id_of (VNum (Z.of_N n)) = Some n.
Proof.
  unfold id_of, to_property_key.
  destruct (Z.leb_spec 0 (Z.of_N n)) as [_ | Hneg]; [ | lia].
  cbn [own_key]. rewrite N2Z.id. reflexivity.
Qed.

Section InboundExtra.

Variable JSON_stringify : value → string + string.
Variable JSON_parse : string → string + value.
Variable ws_send : handle → value → option string.



(** X16.  A message that is no broadcast and whose id is the name of a
    property that [_requests] inherits from [Object.prototype] is not
    reported as missing: the inherited value is taken for the callback and
    called.  Nothing is logged, so [onError] is not called, and the table
    and the counter are as before; the handler returns if the value is
    [Object], [toString] or [isPrototypeOf] and otherwise ends in a
    TypeError. *)
Theorem response_for_inherited_name data update nes name member w :
  JSON_parse data = inr update →
  get_property update "nes" = Normal nes →
  is_string nes "broadcast" = false →
  to_property_key (property update "id") = Normal (Name name) →
  Object_prototype name = Some member →
  let result := _onMessage JSON_parse data w in
  result.2 = []
  ∧ _requests (self result.1.2) = _requests (self w)
  ∧ _ids (self result.1.2) = _ids (self w)
  ∧ match member with
    | Returns => result.1.1 = Normal tt
    | Fails | NotCallable => ∃ text, result.1.1 = Throw (TypeError text)
    end.
Proof.
  intros Hparse Hnes Hkind Hkey Hmember result. subst result.
  unfold _onMessage, parse. rewrite Hparse. cbn [truthy].
  rewrite Hnes. erewrite bind_quiet by reflexivity. rewrite Hkind.
  rewrite (get_property_defined _ _ _ "id" Hnes).
  erewrite bind_quiet by reflexivity.
  rewrite Hkey. erewrite bind_quiet by reflexivity.
  erewrite bind_quiet by reflexivity. cbn [requests_property]. rewrite Hmember.
  erewrite bind_quiet by reflexivity.
  destruct member; repeat split; eexists; reflexivity.
Qed.

(** X3.  What cannot be read as a message.  If [JSON.parse] throws, that
    error goes to [onError] and nothing changes.  If the text is the JSON
    [null], reading [update.nes] throws a TypeError that leaves the handler:
    no hook is called and nothing changes. *)
Theorem unreadable_message data w :
  (∀ err, JSON_parse data = inl err →
     _onMessage JSON_parse data w = (Normal tt, w, [OnError (VError err)]))
  ∧ (JSON_parse data = inr VNull →
     _onMessage JSON_parse data w
     = (Throw (TypeError "Cannot read property 'nes' of null"), w, [])).
Proof.
  split.
  - intros err Hparse. unfold _onMessage, parse. rewrite Hparse. reflexivity.
  - intros Hparse. unfold _onMessage, parse. rewrite Hparse. reflexivity.
Qed.

(** X4.  Round trip through the table.  A request that [_send] stores and
    sends is found again by a message that carries the request's id as a
    number: the message's handler calls the stored callback with (null,
    message), and the table is the one from before the request. *)
Theorem send_then_response request k data update nes h text w :
  open_socket w = Some h →
  _requests (self w) !! N.succ (_ids (self w)) = None →
  JSON_stringify
    (VObj (set_property request "id" (VNum (Z.of_N (N.succ (_ids (self w)))))))
  = inr text →
  ws_send h (VStr text) = None →
  JSON_parse data = inr update →
  get_property update "nes" = Normal nes →
  is_string nes "broadcast" = false →
  property update "id" = VNum (Z.of_N (N.succ (_ids (self w)))) →
  let sent := (_send JSON_stringify ws_send request k w).1.2 in
  _requests (self sent) !! N.succ (_ids (self w)) = Some k
  ∧ _onMessage JSON_parse data sent
    = apply_request_callback k [VNull; update]
        (with_self (with_ids (N.succ (_ids (self w)))) w).
Proof.
  intros Hopen Hfresh Htext Hsend Hparse Hnes Hkind Hid sent. subst sent.
  rewrite send_unfold, Hopen. cbv zeta. rewrite Htext, Hsend. cbn [fst snd].
  set (id := N.succ (_ids (self w))) in *.
  assert (Hk : _requests (self (with_self (with_requests (<[id := k]> (_requests (self w))))
                                  (with_self (with_ids id) w))) !! id = Some k)
    by apply lookup_insert_eq.
  split; [exact Hk | ].
  erewrite (onMessage_correlated JSON_parse data update nes id k);
    [ | exact Hparse | exact Hnes | exact Hkind | rewrite Hid; apply id_of_number
      | exact Hk ].
  cbn [self with_self with_requests with_ids _requests].
  rewrite delete_insert_id by exact Hfresh. reflexivity.
Qed.

End InboundExtra.



Lemma response_for_inherited_name_witness :
  Object_prototype "toString" = Some Returns
  ∧ Object_prototype "__proto__" = Some NotCallable
  ∧ (demo_run initial [Connect None 0; Open 0; Message 0 "response toString";
                       Message 0 "response __proto__"]).2
    = [NewWS 0; OnConnect; Call 0 [];
       Uncaught (TypeError "callback is not a function")]
  ∧ (_onMessage demo_parse "response toString" initial).2 = [].
Proof.
  split; [reflexivity | ]. split; [reflexivity | ]. split; [reflexivity | ].
  apply (response_for_inherited_name demo_parse "response toString"
           (VObj [("nes", VStr "response"); ("id", VStr "toString")])
           (VStr "response") "toString" Returns initial); reflexivity.
Defined.

Lemma send_then_response_witness :
  let w := (demo_run initial [Connect None 0; Open 0]).1 in
  let sent := (_send demo_stringify demo_send [("path", VStr "/")] (RequestCallback 1) w).1.2 in
  open_socket w = Some 0
  ∧ (_onMessage demo_parse "response 1 200" sent).2
    = [Call 1 [VNull; VStr "hello"; VNum 200; VObj []]].
Proof.
  intros w sent. split; [reflexivity | ].
  destruct (send_then_response demo_stringify demo_parse demo_send
              [("path", VStr "/")] (RequestCallback 1) "response 1 200"
              (VObj [("nes", VStr "response"); ("id", VNum 1); ("statusCode", VNum 200);
                     ("payload", VStr "hello"); ("headers", VObj [])])
              (VStr "response") 0 "{...}" w
              eq_refl eq_refl eq_refl eq_refl eq_refl eq_refl eq_refl eq_refl)
    as [_ H].
  fold sent in H. rewrite H. reflexivity.
Defined.

(** ** [disconnect] *)

(** [disconnect] by cases *)
Lemma disconnect_unfold w :
  let off := with_self (with_reconnection None) w in
  disconnect w =
  match _ws (self w) with
  | Some h =>
      match sockets w !! h with
      | Some s =>
          if is_OPEN (readyState s) || is_CONNECTING (readyState s) then
            (Normal tt,
             {| self := self off;
                sockets := <[h := {| readyState := CLOSING;
                                     sentCallback := sentCallback s;
                                     connect_auth := connect_auth s;
                                     connect_cb := connect_cb s |}]> (sockets w);
                timers := timers w |},
             [WsClose h])
          else (Normal tt, off, [])
      | None => (Normal tt, off, [])
      end
  | None => (Normal tt, off, [])
  end.
Proof.
  cbv zeta. unfold disconnect.
  erewrite bind_quiet by reflexivity. erewrite bind_quiet by reflexivity.
  cbn [_ws self with_self with_reconnection].
  destruct (_ws (self w)) as [h | ]; [ | reflexivity].
  erewrite bind_quiet by reflexivity. cbn [sockets with_self].
  destruct (sockets w !! h) as [s | ] eqn:Hs; [ | reflexivity].
  destruct (is_OPEN (readyState s) || is_CONNECTING (readyState s)); [ | reflexivity].
  unfold ws_close, set_readyState, update_socket, emit, bind. cbn. rewrite Hs.
  reflexivity.
Qed.

(** X5.  [disconnect()] a second time does nothing: the policy is already
    null and the socket, if [close()] was called on it, is closing, so
    [close()] is not called again. *)
Theorem disconnect_twice w :
  let once := (disconnect w).1.2 in
  disconnect once = (Normal tt, once, []).
Proof.
  cbv zeta. rewrite (disconnect_unfold w). cbv zeta.
  destruct w as [[ws r ids table] socks pending_count].
  cbn [_ws self sockets timers with_self with_reconnection].
  destruct ws as [h | ].
  2: { cbn [fst snd]. rewrite disconnect_unfold. reflexivity. }
  destruct (socks !! h) as [s | ] eqn:Hs.
  2: { cbn [fst snd]. rewrite disconnect_unfold. cbn. rewrite Hs. reflexivity. }
  destruct (is_OPEN (readyState s) || is_CONNECTING (readyState s)) eqn:Hstate.
  - cbn [fst snd]. rewrite disconnect_unfold. cbn.
    rewrite list_lookup_insert_eq by (eapply lookup_lt_Some; exact Hs).
    reflexivity.
  - cbn [fst snd]. rewrite disconnect_unfold. cbn. rewrite Hs, Hstate. reflexivity.
Qed.

Section ReconnectionExtra.

Variable JSON_stringify : value → string + string.
Variable JSON_parse : string → string + value.
Variable ws_send : handle → value → option string.

(** X6.  With the policy off nothing reconnects.  After [disconnect()], and
    after [connect] with [reconnect: false], no event other than a later
    call of [connect] sets a timer, and the policy stays null. *)
Theorem no_reconnection_when_off events w :
  forallb (λ e, negb (is_Connect e)) events = true →
  let quiet (start : event) :=
    let result :=
      run JSON_stringify JSON_parse ws_send
        (step JSON_stringify JSON_parse ws_send w start).1 events in
    timeouts result.2 = [] ∧ _reconnection (self result.1) = None in
  quiet Disconnect
  ∧ ∀ options callback,
      ConnectOptions.reconnect options = VBool false →
      quiet (Connect (Some options) callback).
Proof.
  intros Hevents quiet.
  assert (Hoff : ∀ w0, _reconnection (self w0) = None →
            timeouts (run JSON_stringify JSON_parse ws_send w0 events).2 = []
            ∧ _reconnection (self (run JSON_stringify JSON_parse ws_send w0 events).1)
              = None).
  { intros w0 Hnone.
    pose proof (respects_run_events backs_off JSON_stringify JSON_parse ws_send
                  backs_off_emit events w0) as Hrun.
    unfold backs_off in Hrun. rewrite Hnone in Hrun. apply Hrun.
    apply Forall_forall. intros e He. apply backs_off_event.
    rewrite forallb_forall in Hevents. apply negb_true_iff, Hevents.
    apply list_elem_of_In. exact He. }
  split.
  - apply Hoff. rewrite step_world.
    pose proof (backs_off_policy_off w) as Hclear.
    unfold deliver, disconnect.
    erewrite bind_quiet by reflexivity. erewrite bind_quiet by reflexivity.
    cbn [_ws self with_self with_reconnection].
    destruct (_ws (self w)) as [h | ]; [ | reflexivity].
    erewrite bind_quiet by reflexivity.
    destruct (sockets (with_self (with_reconnection None) w) !! h) as [s | ];
      [ | reflexivity].
    destruct (is_OPEN (readyState s) || is_CONNECTING (readyState s)); reflexivity.
  - intros options callback Hfalse. apply Hoff. rewrite step_world.
    unfold deliver, connect. cbv zeta.
    change (default ConnectOptions.empty (Some options)) with options.
    rewrite Hfalse. reflexivity.
Qed.

(** X7.  Reconnection replays the credential.  After [connect(options,
    callback)] with reconnection on and any events other than further
    [connect] calls, a policy that is still there holds [options.auth], and
    the timer function creates one socket, makes it the current one, and
    gives its handlers that credential and the reconnect closure. *)
Theorem reconnect_replays_credential options callback events w :
  is_not_false (ConnectOptions.reconnect options) = true →
  forallb (λ e, negb (is_Connect e)) events = true →
  let connected :=
    (step JSON_stringify JSON_parse ws_send w (Connect (Some options) callback)).1 in
  let now := (run JSON_stringify JSON_parse ws_send connected events).1 in
  let fired := reconnect_timer now in
  ∀ r, _reconnection (self now) = Some r →
       auth r = ConnectOptions.auth options
       ∧ fired.1.1 = Normal tt
       ∧ fired.2 = [NewWS (length (sockets now))]
       ∧ _ws (self fired.1.2) = Some (length (sockets now))
       ∧ sockets fired.1.2
         = sockets now ++ [{| readyState := CONNECTING; sentCallback := false;
                              connect_auth := ConnectOptions.auth options;
                              connect_cb := ReconnectCallback |}].
Proof.
  intros Hreconnect Hevents connected now fired r Hr.
  assert (Hauth : auth r = ConnectOptions.auth options).
  { pose proof (respects_run_events backs_off JSON_stringify JSON_parse ws_send
                  backs_off_emit events connected) as Hrun.
    unfold backs_off in Hrun.
    assert (Hconnected : _reconnection (self connected)
              = Some {| wait := 0;
                        delay := or_number (ConnectOptions.delay options) 1000;
                        maxDelay := or_number (ConnectOptions.maxDelay options) 5000;
                        auth := ConnectOptions.auth options |}).
    { subst connected. unfold step, deliver, connect. cbv zeta.
      change (default ConnectOptions.empty (Some options)) with options.
      rewrite Hreconnect. reflexivity. }
    rewrite Hconnected in Hrun. fold now in Hrun.
    destruct Hrun as (n & _ & [Hpolicy | Hpolicy]).
    - apply Forall_forall. intros e He. apply backs_off_event.
      rewrite forallb_forall in Hevents. apply negb_true_iff, Hevents.
      apply list_elem_of_In. exact He.
    - rewrite Hpolicy in Hr. injection Hr as <-. reflexivity.
    - rewrite Hpolicy in Hr. discriminate Hr. }
  split; [exact Hauth | ].
  subst fired. unfold reconnect_timer. erewrite bind_quiet by reflexivity.
  rewrite Hr, Hauth. repeat split.
Qed.

(** X8.  When a socket closes while the authentication of a reconnection
    is still pending, two timers are set: the pending reconnect closure is
    called with [Error('Disconnected')], reports it to [onError] and starts a
    cycle, and [_onClose] then starts its own. *)
Theorem close_during_reconnect_auth w r id :
  _reconnection (self w) = Some r →
  _requests (self w) = {[id := AuthenticateCallback ReconnectCallback]} →
  (_onClose w).2
  = [OnError (VError "Disconnected");
     SetTimeout (Z.min (wait r + delay r) (maxDelay r));
     SetTimeout (Z.min (wait r + delay r + delay r) (maxDelay r))].
Proof.
  intros Hr Htable. unfold _onClose.
  erewrite bind_quiet by reflexivity. erewrite bind_quiet by reflexivity.
  cbn [self with_self with_ws _requests]. rewrite Htable.
  unfold Object_keys. rewrite map_to_list_singleton. cbn [map fst].
  change (merge_sort N.le [id]) with [id]. cbn [for_each].
  set (w0 := with_self (with_ws None) w).
  assert (Hr0 : _reconnection (self w0) = Some r) by exact Hr.
  assert (Hflush :
    (callback <- lookup_request (Some id) ;;
     delete_request (Some id) ;;
     match callback with
     | Some callback => apply_request_callback callback [VError "Disconnected"]
     | None => throw (TypeError "callback is not a function")
     end) w0
    = (Normal tt,
       {| self := with_reconnection (Some (advance r 1))
                    (with_requests (delete id (_requests (self w0))) (self w0));
          sockets := sockets w0; timers := S (timers w0) |},
       [OnError (VError "Disconnected");
        SetTimeout (Z.min (wait r + delay r) (maxDelay r))])).
  { erewrite bind_quiet by reflexivity.
    assert (Hk : requests_get (_requests (self w0)) (Some id)
                 = Some (AuthenticateCallback ReconnectCallback)).
    { cbn. rewrite Htable. apply lookup_singleton_eq. }
    rewrite Hk. erewrite bind_quiet by reflexivity.
    unfold apply_request_callback, apply_connect_callback. cbn [arg nth truthy].
    erewrite bind_normal by reflexivity.
    erewrite reconnect_cycle by exact Hr0. reflexivity. }
  erewrite (bind_normal (bind _ _)).
  2: { erewrite bind_normal by exact Hflush. reflexivity. }
  cbn [fst snd]. erewrite reconnect_cycle by reflexivity.
  cbn [snd app advance wait delay maxDelay].
  replace (wait r + Z.of_nat 1 * delay r + delay r)%Z
    with (wait r + delay r + delay r)%Z by lia.
  reflexivity.
Qed.

End ReconnectionExtra.

Lemma no_reconnection_when_off_witness :
  let events := [Close 0; Timeout; Request (inl "/") 1] in
  let w := (demo_run initial [Connect None 0; Open 0]).1 in
  forallb (λ e, negb (is_Connect e)) events = true
  ∧ timeouts
      (demo_run (step demo_stringify demo_parse demo_send w Disconnect).1 events).2 = [].
Proof.
  intros events w. split; [reflexivity | ].
  destruct (no_reconnection_when_off demo_stringify demo_parse demo_send events w eq_refl)
    as [[H _] _].
  exact H.
Defined.

Lemma reconnect_replays_credential_witness :
  let options := {| ConnectOptions.reconnect := VUndefined;
                    ConnectOptions.delay := None;
                    ConnectOptions.maxDelay := None;
                    ConnectOptions.auth := VStr "secret" |} in
  let events := [Open 0; Close 0] in
  let now :=
    (demo_run (step demo_stringify demo_parse demo_send initial
                 (Connect (Some options) 0)).1 events).1 in
  is_not_false (ConnectOptions.reconnect options) = true
  ∧ forallb (λ e, negb (is_Connect e)) events = true
  ∧ ∃ r, _reconnection (self now) = Some r
         ∧ auth r = VStr "secret"
         ∧ (reconnect_timer now).2 = [NewWS 1].
Proof.
  intros options events now.
  split; [reflexivity | ]. split; [reflexivity | ].
  eexists. split; [reflexivity | ].
  destruct (reconnect_replays_credential demo_stringify demo_parse demo_send
              options 0 events initial eq_refl eq_refl _ eq_refl)
    as (Hauth & _ & Hlog & _).
  split; [exact Hauth | exact Hlog].
Defined.

Lemma close_during_reconnect_auth_witness :
  let r := {| wait := 1000; delay := 1000; maxDelay := 5000; auth := VStr "secret" |} in
  let w := {| self := {| _ws := Some 1; _reconnection := Some r; _ids := 1;
                         _requests := {[1%N := AuthenticateCallback ReconnectCallback]} |};
              sockets := []; timers := 0 |} in
  _reconnection (self w) = Some r
  ∧ (_onClose w).2
    = [OnError (VError "Disconnected"); SetTimeout 2000; SetTimeout 3000].
Proof.
  intros r w. split; [reflexivity | ].
  apply (close_during_reconnect_auth w r 1%N); reflexivity.
Defined.

(** ** What events leave alone *)

#[export] Instance requests_same_composable : Composable requests_same.
Proof.
  split; [done | ].
  intros w1 l1 w2 l2 w3 [? ?] [? ?]. split; congruence.
Qed.

Lemma requests_same_intro w log w' :
  _requests (self w') = _requests (self w) → _ids (self w') = _ids (self w) →
  requests_same w log w'.
Proof. intros Htable Hids. split; assumption. Qed.

#[export] Instance opens_nothing_composable : Composable opens_nothing.
Proof.
  split; [done | ].
  intros w1 l1 w2 l2 w3 [Hl1 Hs1] [Hl2 Hs2]. unfold opens_nothing, opened in *.
  rewrite omap_app, Hl1, Hl2. split; [reflexivity | congruence].
Qed.

Lemma opens_nothing_emit e : (∀ h, e ≠ NewWS h) → respects opens_nothing (emit e).
Proof.
  intros He w. split; [ | reflexivity].
  destruct e; try reflexivity. destruct (He h). reflexivity.
Qed.

Lemma opens_nothing_update f : respects opens_nothing (update f).
Proof. done. Qed.

Lemma opens_nothing_update_socket h f : respects opens_nothing (update_socket h f).
Proof.
  intros w. split; [reflexivity | ]. cbn.
  destruct (sockets w !! h); [apply length_insert | reflexivity].
Qed.

Lemma opens_nothing_setTimeout ms : respects opens_nothing (setTimeout ms).
Proof. done. Qed.

Lemma opens_nothing_next_id : respects opens_nothing next_id.
Proof. done. Qed.

#[export] Hint Resolve opens_nothing_update opens_nothing_update_socket
  opens_nothing_setTimeout opens_nothing_next_id : respects.
#[export] Hint Extern 1 (respects opens_nothing (emit _)) =>
  apply opens_nothing_emit; intros ?; discriminate : respects.

Lemma opens_nothing_reconnect : respects opens_nothing _reconnect.
Proof. unfold _reconnect, set_reconnection. respects_auto. Qed.

#[export] Hint Resolve opens_nothing_reconnect : respects.

Lemma opens_nothing_apply_connect_callback callback args :
  respects opens_nothing (apply_connect_callback callback args).
Proof. unfold apply_connect_callback. respects_auto. Qed.

#[export] Hint Resolve opens_nothing_apply_connect_callback : respects.

Lemma opens_nothing_apply_request_callback k args :
  respects opens_nothing (apply_request_callback k args).
Proof. unfold apply_request_callback. respects_auto. Qed.

#[export] Hint Resolve opens_nothing_apply_request_callback : respects.

Section Untouched.

Variable JSON_stringify : value → string + string.
Variable JSON_parse : string → string + value.
Variable ws_send : handle → value → option string.

Lemma opens_nothing_send request callback :
  respects opens_nothing (_send JSON_stringify ws_send request callback).
Proof. unfold _send, stringify, store_request, delete_request. respects_auto. Qed.

(** X9.  Only [connect] and the reconnect timer create sockets: the
    handler of any other event ([disconnect], [request], [authenticate], a
    socket's open, error, close or message) calls [new WS] not once and
    leaves the number of sockets as it is. *)
Theorem only_connect_opens_sockets e w :
  connects e = false →
  opened (step JSON_stringify JSON_parse ws_send w e).2 = []
  ∧ length (sockets (step JSON_stringify JSON_parse ws_send w e).1) = length (sockets w).
Proof.
  intros He.
  assert (Hdeliver : respects opens_nothing (deliver JSON_stringify JSON_parse ws_send e)).
  { pose proof opens_nothing_send.
    destruct e; try discriminate He;
      unfold deliver, disconnect, request, ws_onopen, ws_onerror, authenticate,
        ws_onclose, ws_onmessage, _onClose, _onMessage, parse, ws_close,
        set_readyState, set_sentCallback, set_reconnection, set_ws, delete_request;
      respects_auto. }
  specialize (Hdeliver w). unfold step.
  destruct (deliver _ _ _ e w) as [[[[] | x] w1] l1]; cbn [fst snd] in *;
    [exact Hdeliver | ].
  destruct Hdeliver as [Hlog Hlen]. split; [ | exact Hlen].
  unfold opened in *. rewrite omap_app, Hlog. reflexivity.
Qed.

(** X10.  [connect], [disconnect], a socket's error and a firing timer
    leave the pending table and the counter as they are.  In particular
    [disconnect()] by itself fails no pending request (the socket's close
    does), and an error of the transport resolves none. *)
Theorem pending_requests_left_alone e w :
  away_from_requests e = true →
  _requests (self (step JSON_stringify JSON_parse ws_send w e).1) = _requests (self w)
  ∧ _ids (self (step JSON_stringify JSON_parse ws_send w e).1) = _ids (self w).
Proof.
  intros He.
  assert (Hdeliver : respects requests_same (deliver JSON_stringify JSON_parse ws_send e)).
  { pose proof (table_emit requests_same requests_same_intro).
    pose proof (table_set_ws requests_same requests_same_intro).
    pose proof (table_update_socket requests_same requests_same_intro).
    pose proof (table_new_WS requests_same requests_same_intro).
    pose proof (table_clear_timer requests_same requests_same_intro).
    pose proof (table_set_reconnection requests_same requests_same_intro).
    pose proof (table_reconnect requests_same requests_same_intro).
    destruct e; try discriminate He;
      unfold deliver, connect, disconnect, ws_onerror, reconnect_timer, _connect,
        apply_connect_callback, ws_close, set_readyState, set_sentCallback;
      respects_auto. }
  rewrite step_world. exact (Hdeliver w).
Qed.

End Untouched.

Lemma only_connect_opens_sockets_witness :
  let w := (demo_run initial [Connect None 0; Open 0]).1 in
  connects (Close 0) = false
  ∧ opened (step demo_stringify demo_parse demo_send w (Close 0)).2 = []
  ∧ length (sockets (step demo_stringify demo_parse demo_send w (Close 0)).1) = 1.
Proof.
  intros w. split; [reflexivity | ].
  exact (only_connect_opens_sockets demo_stringify demo_parse demo_send (Close 0) w eq_refl).
Defined.

Lemma pending_requests_left_alone_witness :
  let w := (demo_run initial [Connect None 0; Open 0; Request (inl "/") 1]).1 in
  away_from_requests Disconnect = true
  ∧ _requests (self (step demo_stringify demo_parse demo_send w Disconnect).1)
    = _requests (self w).
Proof.
  intros w. split; [reflexivity | ].
  exact (proj1 (pending_requests_left_alone demo_stringify demo_parse demo_send
                  Disconnect w eq_refl)).
Defined.

(** ** Connecting *)

Lemma last_lookup {A} (l : list A) (x : A) : (l ++ [x]) !! length l = Some x.
Proof. apply list_lookup_middle. reflexivity. Qed.

Lemma last_insert {A} (l : list A) (x y : A) : <[length l := y]> (l ++ [x]) = l ++ [y].
Proof. rewrite <- (Nat.add_0_r (length l)), insert_app_r. reflexivity. Qed.

Lemma update_socket_last c l x t f :
  update_socket (length l) f {| self := c; sockets := l ++ [x]; timers := t |}
  = (Normal tt, {| self := c; sockets := l ++ [f x]; timers := t |}, []).
Proof. unfold update_socket. cbn. rewrite last_lookup, last_insert. reflexivity. Qed.

Lemma socket_last c l x t :
  socket (length l) {| self := c; sockets := l ++ [x]; timers := t |}
  = (Normal (Some x), {| self := c; sockets := l ++ [x]; timers := t |}, []).
Proof. unfold socket. cbn. rewrite last_lookup. reflexivity. Qed.

(** [connect] creates one socket, makes it the current one and touches no
    other: an earlier socket is neither closed nor forgotten by the store. *)
Lemma connect_unfold options callback w :
  connect (Some options) callback w
  = (Normal tt,
     {| self :=
          with_ws (Some (length (sockets w)))
            (with_reconnection
               (if is_not_false (ConnectOptions.reconnect options) then
                  Some {| wait := 0;
                          delay := or_number (ConnectOptions.delay options) 1000;
                          maxDelay := or_number (ConnectOptions.maxDelay options) 5000;
                          auth := ConnectOptions.auth options |}
                else None)
               (self w));
        sockets := sockets w ++ [{| readyState := CONNECTING; sentCallback := false;
                                    connect_auth := ConnectOptions.auth options;
                                    connect_cb := AppCallback callback |}];
        timers := timers w |},
     [NewWS (length (sockets w))]).
Proof.
  unfold connect. cbv zeta.
  change (default ConnectOptions.empty (Some options)) with options.
  destruct (is_not_false (ConnectOptions.reconnect options)); reflexivity.
Qed.

Section ConnectingExtra.

Variable JSON_stringify : value → string + string.
Variable JSON_parse : string → string + value.
Variable ws_send : handle → value → option string.

(** X11.  [connect(options, callback)] followed by the new socket's
    [open].  [onConnect] is called.  Without a credential the callback is
    then called with no argument.  With one, the message [{id, nes: 'auth',
    token}] with the next id is sent instead, and the callback waits in the
    pending table for the answer. *)
Theorem connect_then_open options callback w :
  let h := length (sockets w) in
  let token := ConnectOptions.auth options in
  let id := N.succ (_ids (self w)) in
  let result :=
    run JSON_stringify JSON_parse ws_send w [Connect (Some options) callback; Open h] in
  if truthy token then
    ∀ text,
      JSON_stringify
        (VObj [("id", VNum (Z.of_N id)); ("nes", VStr "auth"); ("token", token)])
      = inr text →
      ws_send h (VStr text) = None →
      result.2 = [NewWS h; OnConnect; WsSend h (VStr text)]
      ∧ _requests (self result.1)
        = <[id := AuthenticateCallback (AppCallback callback)]> (_requests (self w))
  else
    result.2 = [NewWS h; OnConnect; Call callback []]
    ∧ _requests (self result.1) = _requests (self w).
Proof.
  intros h token id result.
  set (c1 := with_ws (Some h)
               (with_reconnection
                  (if is_not_false (ConnectOptions.reconnect options) then
                     Some {| wait := 0;
                             delay := or_number (ConnectOptions.delay options) 1000;
                             maxDelay := or_number (ConnectOptions.maxDelay options) 5000;
                             auth := token |}
                   else None)
                  (self w))).
  set (s0 := {| readyState := CONNECTING; sentCallback := false;
                connect_auth := token; connect_cb := AppCallback callback |}).
  set (s1 := {| readyState := OPEN; sentCallback := true;
                connect_auth := token; connect_cb := AppCallback callback |}).
  set (w1 := {| self := c1; sockets := sockets w ++ [s0]; timers := timers w |}).
  set (w2 := {| self := c1; sockets := sockets w ++ [s1]; timers := timers w |}).
  assert (Hconnect : step JSON_stringify JSON_parse ws_send w
                       (Connect (Some options) callback) = (w1, [NewWS h])).
  { unfold step. cbn [deliver]. rewrite connect_unfold. reflexivity. }
  assert (Hopen :
    deliver JSON_stringify JSON_parse ws_send (Open h) w1
    = bind (emit OnConnect)
        (λ _, if negb (truthy token) then apply_connect_callback (AppCallback callback) []
              else authenticate JSON_stringify ws_send token (AppCallback callback))
        w2).
  { unfold deliver, w1. erewrite bind_quiet by apply socket_last.
    cbn [readyState s0 is_CONNECTING].
    unfold set_readyState. erewrite bind_quiet by apply update_socket_last.
    unfold ws_onopen. cbn [sentCallback s0 negb connect_auth connect_cb].
    unfold set_sentCallback. erewrite bind_quiet by apply update_socket_last.
    reflexivity. }
  destruct (truthy token) eqn:Htoken.
  - intros text Htext Hsend.
    assert (Hstep : step JSON_stringify JSON_parse ws_send w1 (Open h)
              = (with_self (with_requests
                              (<[id := AuthenticateCallback (AppCallback callback)]>
                                 (_requests (self w))))
                   (with_self (with_ids id) w2),
                 [OnConnect; WsSend h (VStr text)])).
    { unfold step. rewrite Hopen. erewrite bind_normal by reflexivity. cbn [negb].
      unfold authenticate. rewrite send_unfold.
      assert (Hsocket : open_socket w2 = Some h).
      { unfold open_socket, w2. cbn [self sockets c1 with_ws _ws].
        unfold h. rewrite last_lookup. reflexivity. }
      rewrite Hsocket. cbv zeta.
      change (_ids (self w2)) with (_ids (self w)). fold id.
      cbn [set_property String.eqb Ascii.eqb Bool.eqb].
      rewrite Htext, Hsend. reflexivity. }
    subst result. cbn [run]. rewrite Hconnect, Hstep. split; reflexivity.
  - assert (Hstep : step JSON_stringify JSON_parse ws_send w1 (Open h)
              = (w2, [OnConnect; Call callback []])).
    { unfold step. rewrite Hopen. erewrite bind_normal by reflexivity. reflexivity. }
    subst result. cbn [run]. rewrite Hconnect, Hstep. split; reflexivity.
Qed.

(** X12.  An error of a socket goes to the callback that [_connect] was
    given if neither [open] nor an earlier error has used it, and only to
    [onError] afterwards; either way nothing else happens. *)
Theorem socket_error_routing h s message w :
  sockets w !! h = Some s →
  is_CLOSED (readyState s) = false →
  deliver JSON_stringify JSON_parse ws_send (Error h message) w =
  if sentCallback s then (Normal tt, w, [OnError (VError message)])
  else
    apply_connect_callback (connect_cb s) [VError message]
      {| self := self w;
         sockets := <[h := {| readyState := readyState s; sentCallback := true;
                              connect_auth := connect_auth s;
                              connect_cb := connect_cb s |}]> (sockets w);
         timers := timers w |}.
Proof.
  intros Hs Hstate. unfold deliver.
  erewrite bind_quiet by (unfold socket; rewrite Hs; reflexivity).
  cbv beta iota. rewrite Hstate. unfold ws_onerror.
  destruct (sentCallback s); cbn [negb]; [reflexivity | ].
  erewrite bind_quiet; [reflexivity | ].
  unfold set_sentCallback, update_socket. rewrite Hs. reflexivity.
Qed.

(** X13.  After the close of any socket, current or not, no socket is
    current, and a request made then is answered at once with
    [Error('Disconnected')]: nothing is sent and nothing is stored. *)
Theorem request_after_close h s options callback w :
  sockets w !! h = Some s →
  is_CLOSED (readyState s) = false →
  let closed := (step JSON_stringify JSON_parse ws_send w (Close h)).1 in
  _ws (self closed) = None
  ∧ _requests (self closed) = ∅
  ∧ step JSON_stringify JSON_parse ws_send closed (Request options callback)
    = (closed, [Call callback [VError "Disconnected"]]).
Proof.
  intros Hs Hstate closed.
  assert (Hclosed : _ws (self closed) = None ∧ _requests (self closed) = ∅).
  { subst closed. rewrite step_world. unfold deliver.
    erewrite bind_quiet by (unfold socket; rewrite Hs; reflexivity).
    cbv beta iota. rewrite Hstate. unfold set_readyState.
    erewrite bind_quiet by reflexivity.
    unfold ws_onclose.
    match goal with |- context [_onClose ?x] => set (w1 := x) end.
    set (w0 := with_self (with_ws None) w1).
    pose proof (flush_loop (VError "Disconnected") (Object_keys (_requests (self w0)))
                  eq_refl w0 (Object_keys_NoDup _)) as Hloop.
    destruct Hloop as (Hret & Htable & Hws & _).
    { intros id Hid. apply Object_keys_elem_of. exact Hid. }
    destruct (for_each _ _ w0) as [[r w2] l2] eqn:Hflush.
    cbn [fst snd] in Hret, Htable, Hws. subst r.
    pose proof (untouched_reconnect w2) as (Htable' & _ & Hws' & _).
    assert (Hclose : (_onClose w1).1.2 = (_reconnect w2).1.2).
    { unfold _onClose. erewrite bind_quiet by reflexivity.
      erewrite bind_quiet by reflexivity.
      erewrite bind_normal by exact Hflush. reflexivity. }
    rewrite Hclose, Hws', Hws, Htable'. split; [reflexivity | ].
    apply map_eq. intros i. rewrite Htable, lookup_empty.
    destruct (decide (i ∈ Object_keys (_requests (self w0)))) as [Hi | Hi];
      [reflexivity | ].
    destruct (_requests (self w0) !! i) as [k | ] eqn:Hk; [ | reflexivity].
    exfalso. apply Hi, Object_keys_elem_of. eauto. }
  destruct Hclosed as [Hws Htable]. split; [exact Hws | ]. split; [exact Htable | ].
  unfold step, deliver, request. rewrite send_unfold.
  unfold open_socket. rewrite Hws. reflexivity.
Qed.

(** X14.  The message of a request.  With an open socket,
    [request(options, callback)] hands [JSON.stringify] the object [{id, nes:
    'request', method, path, headers, payload}] whose id is the counter's
    next value and whose other fields are those of [options]; the text is
    sent on the current socket and the callback is stored under that id.  A
    path alone stands for method GET with headers and payload undefined. *)
Theorem request_message options callback h text w :
  open_socket w = Some h →
  let id := N.succ (_ids (self w)) in
  let fields :=
    match options with
    | inl path => (VStr "GET", VStr path, VUndefined, VUndefined)
    | inr o => (RequestOptions.method o, RequestOptions.path o,
                RequestOptions.headers o, RequestOptions.payload o)
    end in
  JSON_stringify
    (VObj [("id", VNum (Z.of_N id)); ("nes", VStr "request");
           ("method", fields.1.1.1); ("path", fields.1.1.2);
           ("headers", fields.1.2); ("payload", fields.2)])
  = inr text →
  ws_send h (VStr text) = None →
  request JSON_stringify ws_send options callback w
  = (Normal tt,
     with_self (with_requests (<[id := RequestCallback callback]> (_requests (self w))))
       (with_self (with_ids id) w),
     [WsSend h (VStr text)]).
Proof.
  intros Hopen id fields Htext Hsend.
  unfold request. rewrite send_unfold, Hopen. cbv zeta.
  cbn [set_property String.eqb Ascii.eqb Bool.eqb]. fold id.
  destruct options as [path | o]; cbn in Htext; cbn [RequestOptions.method
    RequestOptions.path RequestOptions.headers RequestOptions.payload];
    rewrite Htext, Hsend; reflexivity.
Qed.

End ConnectingExtra.

Lemma connect_then_open_witness :
  let options := {| ConnectOptions.reconnect := VUndefined;
                    ConnectOptions.delay := None;
                    ConnectOptions.maxDelay := None;
                    ConnectOptions.auth := VStr "secret" |} in
  demo_stringify (VObj [("id", VNum 1); ("nes", VStr "auth"); ("token", VStr "secret")])
  = inr "{...}"
  ∧ (demo_run initial [Connect (Some options) 0; Open 0]).2
    = [NewWS 0; OnConnect; WsSend 0 (VStr "{...}")].
Proof.
  intros options. split; [reflexivity | ].
  exact (proj1 (connect_then_open demo_stringify demo_parse demo_send options 0 initial
                  "{...}" eq_refl eq_refl)).
Defined.

Lemma socket_error_routing_witness :
  let w := (demo_run initial [Connect None 0]).1 in
  let s := {| readyState := CONNECTING; sentCallback := false;
              connect_auth := VUndefined; connect_cb := AppCallback 0 |} in
  sockets w !! 0 = Some s
  ∧ (deliver demo_stringify demo_parse demo_send (Error 0 "refused") w).2
    = [Call 0 [VError "refused"]].
Proof.
  intros w s. split; [reflexivity | ].
  rewrite (socket_error_routing demo_stringify demo_parse demo_send 0 s "refused" w
             eq_refl eq_refl).
  reflexivity.
Defined.

Lemma request_after_close_witness :
  let w := (demo_run initial [Connect None 0; Open 0]).1 in
  let closed := (step demo_stringify demo_parse demo_send w (Close 0)).1 in
  is_Some (sockets w !! 0)
  ∧ (step demo_stringify demo_parse demo_send closed (Request (inl "/") 1)).2
    = [Call 1 [VError "Disconnected"]].
Proof.
  intros w closed. split; [eexists; reflexivity | ].
  destruct (request_after_close demo_stringify demo_parse demo_send 0
              {| readyState := OPEN; sentCallback := true;
                 connect_auth := VUndefined; connect_cb := AppCallback 0 |}
              (inl "/") 1 w eq_refl eq_refl) as (_ & _ & H).
  fold closed in H. rewrite H. reflexivity.
Defined.

Lemma request_message_witness :
  let w := (demo_run initial [Connect None 0; Open 0]).1 in
  open_socket w = Some 0
  ∧ (request demo_stringify demo_send (inl "/") 1 w).2 = [WsSend 0 (VStr "{...}")].
Proof.
  intros w. split; [reflexivity | ].
  rewrite (request_message demo_stringify demo_send (inl "/") 1 0 "{...}" w
             eq_refl eq_refl eq_refl).
  reflexivity.
Defined.

(** ** The end of a reconnection attempt *)

Section AttemptExtra.

Variable JSON_parse : string → string + value.


End AttemptExtra.

